(** * googlespreadsheet: column addressing, range construction, map-row
      shaping and the transfer operations of [googlespreadsheet.go].

    The Go package is embedded shallowly.  Machine integers are [Z] with the
    wrap-around of Go's [int] on a 64-bit platform written out, Go strings
    are byte
    strings ([string], one [ascii] per byte), maps are [gmap string _],
    slices are lists with the run-time bounds check made explicit, and the
    calls into the OAuth and Sheets client libraries are answered by an
    explicit record of oracles that sees the whole history of earlier
    calls.  A run either returns or panics, and leaves behind the
    configuration and the trace of the calls it made. *)

From Stdlib Require Import ZArith Ascii String Lia.
From stdpp Require Import gmap strings list fin_maps sorting pretty.

Open Scope Z_scope.

(* ===================================================================== *)
(** ** Go's [int] *)
(* ===================================================================== *)

Module GoInt.

Definition int_min : Z := - 2 ^ 63.
Definition int_max : Z := 2 ^ 63 - 1.

Definition in_range (z : Z) : Prop := int_min <= z <= int_max.

(** Two's-complement wrap-around of a mathematical integer. *)
Definition wrap (z : Z) : Z := (z + 2 ^ 63) mod 2 ^ 64 - 2 ^ 63.

Definition add (a b : Z) : Z := wrap (a + b).
Definition sub (a b : Z) : Z := wrap (a - b).

(** Go's [/] and [%] truncate towards zero. *)
Definition quot (a b : Z) : Z := wrap (Z.quot a b).
Definition rem (a b : Z) : Z := Z.rem a b.

(** [len] of a slice or map, as an [int]. *)
Definition len {A} (l : list A) : Z := Z.of_nat (length l).

End GoInt.

(* ===================================================================== *)
(** ** Go strings and the conversion [string(int)] *)
(* ===================================================================== *)

Definition byte_of_Z (z : Z) : ascii := ascii_of_N (Z.to_N z).

Definition RuneError : Z := 65533.   (* U+FFFD *)
Definition MaxRune : Z := 1114111.   (* U+10FFFF *)

(** [utf8.EncodeRune]: the UTF-8 bytes of a code point; surrogates and
    values outside the Unicode range are encoded as U+FFFD. *)
Definition encoderune (r : Z) : string :=
  let r := if (r <? 0) || (MaxRune <? r) || ((55296 <=? r) && (r <=? 57343))
           then RuneError else r in
  if r <=? 127 then
    String (byte_of_Z r) EmptyString
  else if r <=? 2047 then
    String (byte_of_Z (Z.lor 192 (Z.shiftr r 6)))
   (String (byte_of_Z (Z.lor 128 (Z.land r 63))) EmptyString)
  else if r <=? 65535 then
    String (byte_of_Z (Z.lor 224 (Z.shiftr r 12)))
   (String (byte_of_Z (Z.lor 128 (Z.land (Z.shiftr r 6) 63)))
   (String (byte_of_Z (Z.lor 128 (Z.land r 63))) EmptyString))
  else
    String (byte_of_Z (Z.lor 240 (Z.shiftr r 18)))
   (String (byte_of_Z (Z.lor 128 (Z.land (Z.shiftr r 12) 63)))
   (String (byte_of_Z (Z.lor 128 (Z.land (Z.shiftr r 6) 63)))
   (String (byte_of_Z (Z.lor 128 (Z.land r 63))) EmptyString))).

(** The conversion [string(v)] of an [int]: the UTF-8 text of the code
    point [v]. *)
Definition string_of_int (v : Z) : string := encoderune v.

(** [strconv.Itoa], and the verb [%d] of [fmt]: signed decimal. *)
Definition Itoa (z : Z) : string := pretty z.

(* ===================================================================== *)
(** ** ColAddress *)
(* ===================================================================== *)

Definition rune_A : Z := 65.   (* int('A') *)

Definition ColAddress (col : Z) : string :=
  if (675 <=? col) || (col <? 1) then
    EmptyString
  else if col <=? 26 then
    string_of_int (GoInt.sub (GoInt.add rune_A col) 1)
  else
    string_of_int (GoInt.sub (GoInt.add rune_A (GoInt.quot col 26)) 1)
    +:+ string_of_int (GoInt.sub (GoInt.add rune_A (GoInt.rem col 26)) 1).

(** The character at a given offset from 'A'. *)
Definition letter_at (offset : Z) : ascii := byte_of_Z (65 + offset).

(** The specification's piecewise description of the address codec on its
    domain [1, 674], with floor division and the mathematical modulus. *)
Definition spec_columnAddress (col : Z) : string :=
  if col <=? 26 then
    String (letter_at (col - 1)) EmptyString
  else
    String (letter_at (col / 26 - 1)) (String (letter_at (col mod 26 - 1)) EmptyString).

Definition is_upper_letter (c : ascii) : bool :=
  (65 <=? Z.of_N (N_of_ascii c)) && (Z.of_N (N_of_ascii c) <=? 90).

Fixpoint all_letters (s : string) : bool :=
  match s with
  | EmptyString => true
  | String c s' => is_upper_letter c && all_letters s'
  end.

(* ===================================================================== *)
(** ** Outcomes, slices and loops *)
(* ===================================================================== *)

(** A Go computation either returns or panics. *)
Inductive Outcome (A : Type) : Type :=
| Returns (a : A)
| Panics (msg : string).
Arguments Returns {A} a.
Arguments Panics {A} msg.

Definition obind {A B} (o : Outcome A) (k : A -> Outcome B) : Outcome B :=
  match o with
  | Returns a => k a
  | Panics msg => Panics msg
  end.

Declare Scope outcome_scope.
Delimit Scope outcome_scope with outcome.
Notation "x <- c ;; k" := (obind c (fun x => k))
  (at level 100, c at next level, right associativity) : outcome_scope.

(** [make([]T, n)]: [n] zero values. *)
Definition make {A} (zero : A) (n : Z) : Outcome (list A) :=
  if n <? 0 then Panics "makeslice: len out of range"
  else Returns (replicate (Z.to_nat n) zero).

(** [s[i] = x], with the bounds check of the Go run time. *)
Definition slice_set {A} (s : list A) (i : Z) (x : A) : Outcome (list A) :=
  if (0 <=? i) && (i <? GoInt.len s) then Returns (<[Z.to_nat i := x]> s)
  else Panics "index out of range".

(** [s[i]], with the bounds check of the Go run time. *)
Definition slice_get {A} (s : list A) (i : Z) : Outcome A :=
  if 0 <=? i then
    match s !! Z.to_nat i with
    | Some x => Returns x
    | None => Panics "index out of range"
    end
  else Panics "index out of range".

(** [for i, x := range l { st = body i x st }], started at index [i]. *)
Fixpoint for_range {A S} (l : list A) (i : Z)
    (body : Z -> A -> S -> Outcome S) (st : S) : Outcome S :=
  match l with
  | [] => Returns st
  | x :: l' => (st' <- body i x st ;; for_range l' (i + 1) body st')%outcome
  end.

(* ===================================================================== *)
(** ** Dynamic values and [sql.NullString] *)
(* ===================================================================== *)

(** Go errors, by their message. *)
Inductive error : Type := errors_New (msg : string).

Definition Error (e : error) : string := match e with errors_New msg => msg end.

(** A value of type [interface{}], by dynamic type.  A floating-point
    number is identified by its shortest ['g'] rendering
    ([strconv.FormatFloat(v, 'g', -1, bits)]) and a [time.Time] by its
    RFC 3339 rendering with nanoseconds; every remaining dynamic type
    (pointer, struct, map, slice, channel, function, ...) is [VOther] with
    the type's name as [%T] prints it. *)
Inductive Value : Type :=
| VNil
| VString (s : string)
| VBytes (b : string)
| VBool (b : bool)
| VInt (z : Z)
| VUint (n : N)
| VFloat (g : string)
| VTime (rfc3339nano : string)
| VOther (typeName : string).

(** [strconv.FormatBool]. *)
Definition FormatBool (b : bool) : string := if b then "true" else "false".

(** [convertAssign(dest, src)] of database/sql for a destination of type
    [*string] and a source other than [nil]: the new content of the
    destination and the error. *)
Definition convertAssign (dest : string) (src : Value) : string * option error :=
  match src with
  | VString s => (s, None)
  | VBytes b => (b, None)
  | VTime t => (t, None)
  | VBool b => (FormatBool b, None)
  | VInt z => (Itoa z, None)
  | VUint n => (Itoa (Z.of_N n), None)
  | VFloat g => (g, None)
  | VNil => (dest, Some (errors_New "converting NULL to string is unsupported"))
  | VOther T =>
      (dest, Some (errors_New
         ("unsupported Scan, storing driver.Value type " +:+ T +:+ " into type *string")))
  end.

Record NullString : Type := mkNullString { NS_String : string; NS_Valid : bool }.

(** The zero value of [var str sql.NullString]. *)
Definition NullString_zero : NullString := mkNullString EmptyString false.

(** The method [Scan] of [sql.NullString]. *)
Definition Scan (ns : NullString) (value : Value) : NullString * option error :=
  match value with
  | VNil => (mkNullString EmptyString false, None)
  | _ =>
      let '(s, err) := convertAssign (NS_String ns) value in
      (mkNullString s true, err)
  end.

(** The indexing expression [m[k]] on a map of interfaces: the zero value
    [nil] for a key that is absent. *)
Definition map_index (m : gmap string Value) (k : string) : Value :=
  default VNil (m !! k).

(* ===================================================================== *)
(** ** [sort.Strings] *)
(* ===================================================================== *)

(** Go compares strings byte by byte. *)
Definition string_le (s1 s2 : string) : Prop := String.leb s1 s2 = true.

Global Instance string_le_dec : RelDecision string_le.
Proof. intros s1 s2. unfold string_le. apply _. Defined.

(** [sort.Strings]: the slice in increasing order.  The order is total and
    equal strings are the same string, so the result does not depend on the
    sorting algorithm; a merge sort stands for the one of the library. *)
Definition sort_Strings (l : list string) : list string := merge_sort string_le l.

(* ===================================================================== *)
(** ** The shaping step of [DataMapToGoogleSpreadsheet] *)
(* ===================================================================== *)

(** The order in which [for k := range m] visits the keys of a map is
    chosen by the Go run time: some enumeration of the keys, each once. *)
Record MapRange : Type := mkMapRange {
  range_keys : gmap string Value -> list string;
  range_keys_perm : forall m, range_keys m ≡ₚ (map_to_list m).*1
}.

Section shaping.
Local Open Scope outcome_scope.

(** [i := 0; for k := range data[0] { keys[i] = k; i++ }] *)
Fixpoint fill_keys (visited : list string) (keys : list string) (i : Z)
    : Outcome (list string) :=
  match visited with
  | [] => Returns keys
  | k :: rest =>
      keys' <- slice_set keys i k ;;
      fill_keys rest keys' (GoInt.add i 1)
  end.

(** [valueData[r][c] = v] *)
Definition set_cell (valueData : list (list Value)) (r c : Z) (v : Value)
    : Outcome (list (list Value)) :=
  line <- slice_get valueData r ;;
  line' <- slice_set line c v ;;
  slice_set valueData r line'.

(** The cell written for key [k] of a row: scan into a fresh
    [sql.NullString], drop the error, keep the [String] field. *)
Definition scan_cell (rowvalue : gmap string Value) (k : string) : Value :=
  let str := NullString_zero in
  let '(str, _) := Scan str (map_index rowvalue k) in
  VString (NS_String str).

(** Lines 79-103: from the rows to [valueData], for a first row with
    [nbCols] keys. *)
Definition shape (mr : MapRange) (data : list (gmap string Value))
    (first : gmap string Value) (nbRows nbCols : Z)
    : Outcome (list (list Value)) :=
  keys <- make EmptyString nbCols ;;
  keys <- fill_keys (range_keys mr first) keys 0 ;;
  let keys := sort_Strings keys in
  valueData <- make (@nil Value) (GoInt.add nbRows 1) ;;
  header <- make VNil nbCols ;;
  valueData <- slice_set valueData 0 header ;;
  valueData <- for_range keys 0
                 (fun k v valueData => set_cell valueData 0 k (VString v))
                 valueData ;;
  for_range data 0
    (fun row rowvalue valueData =>
       line <- make VNil nbCols ;;
       valueData <- slice_set valueData (GoInt.add row 1) line ;;
       for_range keys 0
         (fun col k valueData =>
            set_cell valueData (GoInt.add row 1) col (scan_cell rowvalue k))
         valueData)
    valueData.

End shaping.

(** The null-safe coercion of a value to text that the shaper applies. *)
Definition coerce (v : Value) : string := NS_String (Scan NullString_zero v).1.

(** The keys of a row in increasing order. *)
Definition sorted_keys (first : gmap string Value) : list string :=
  sort_Strings (map_to_list first).*1.

(** The contract [shapeMapRows] of the specification, as a function: the
    header of sorted keys of the first row, then one line per row with the
    scanned text of the value under each key. *)
Definition shapeMapRows (data : list (gmap string Value)) : list (list Value) :=
  match data with
  | [] => []
  | first :: _ =>
      let keys := sorted_keys first in
      (VString <$> keys)
        :: ((fun rowvalue => (fun k => scan_cell rowvalue k) <$> keys) <$> data)
  end.

(* ===================================================================== *)
(** ** The client libraries, the configuration and the state *)
(* ===================================================================== *)

(** A parsed service-account key, [*jwt.Config], by address. *)
Inductive JWTConfig : Type := JWTConfig_at (addr : N).

(** [conf.Client(ctx)] allocates the client of a key; it is never nil. *)
Inductive HttpClient : Type := oauth2_NewClient (conf : JWTConfig).

(** The [*sheets.Service] that [sheets.New] builds around a client. *)
Inductive Service : Type := sheets_Service (client : HttpClient).

Record ValueRange : Type := mkValueRange {
  MajorDimension : string;
  Values : list (list Value)
}.

(** Of [sheets.UpdateValuesResponse] only the status code is read. *)
Record UpdateValuesResponse : Type := mkUpdateValuesResponse {
  HTTPStatusCode : Z
}.

Definition SpreadsheetsScope : string :=
  "https://www.googleapis.com/auth/spreadsheets".

(** What the package does to the outside, in the order it does it, each
    call with its answer. *)
Inductive Event : Type :=
| EvJWTConfigFromJSON (confData scope : string) (res : error + JWTConfig)
| EvSheetsNew (client : HttpClient) (res : option error)
| EvUpdateDo (srv : Service) (spreadsheetID range : string)
    (body : ValueRange) (valueInputOption : string)
    (res : error + UpdateValuesResponse)
| EvGetDo (srv : Service) (spreadsheetID range : string) (res : error + ValueRange)
| EvClearDo (srv : Service) (spreadsheetID range : string) (res : option error)
| EvPrintf (format : string).

(** The answers of the libraries and of the remote service.  Each answer
    may depend on everything that happened before. *)
Record World : Type := mkWorld {
  map_range : MapRange;
  JWTConfigFromJSON : list Event -> string -> string -> error + JWTConfig;
  sheets_New : list Event -> HttpClient -> option error;
  Update_Do : list Event -> Service -> string -> string -> ValueRange -> string
              -> error + UpdateValuesResponse;
  Get_Do : list Event -> Service -> string -> string -> error + ValueRange;
  Clear_Do : list Event -> Service -> string -> string -> option error
}.

Record Config : Type := mkConfig {
  GoogleCredentials : string;
  SpreadsheetID : string;
  Client : option HttpClient
}.

Definition with_Client (c : option HttpClient) (conf : Config) : Config :=
  mkConfig (GoogleCredentials conf) (SpreadsheetID conf) c.

(** The configuration behind the pointer [googleConf], and the events so
    far, oldest first. *)
Record State : Type := mkState {
  googleConf : Config;
  trace : list Event
}.

Definition M (A : Type) : Type := State -> Outcome A * State.

Definition ret {A} (a : A) : M A := fun st => (Returns a, st).

Definition bind {A B} (m : M A) (k : A -> M B) : M B :=
  fun st =>
    match m st with
    | (Returns a, st') => k a st'
    | (Panics msg, st') => (Panics msg, st')
    end.

Definition panic {A} (msg : string) : M A := fun st => (Panics msg, st).

Definition lift {A} (o : Outcome A) : M A := fun st => (o, st).

Declare Scope go_scope.
Delimit Scope go_scope with go.
Notation "x <- c ;; k" := (bind c (fun x => k))
  (at level 100, c at next level, right associativity) : go_scope.
Notation "c ;;; k" := (bind c (fun _ => k))
  (at level 100, right associativity) : go_scope.

Definition get_conf : M Config := fun st => (Returns (googleConf st), st).

Definition set_Client (c : option HttpClient) : M unit :=
  fun st => (Returns tt, mkState (with_Client c (googleConf st)) (trace st)).

(** Ask the world, and record the question with its answer. *)
Definition call {A} (ask : list Event -> A) (ev : A -> Event) : M A :=
  fun st =>
    let a := ask (trace st) in
    (Returns a, mkState (googleConf st) (trace st ++ [ev a])).

Definition Printf (format : string) : M unit :=
  fun st => (Returns tt, mkState (googleConf st) (trace st ++ [EvPrintf format])).

Definition nil_dereference : string :=
  "invalid memory address or nil pointer dereference".

(* ===================================================================== *)
(** ** The operations of the package *)
(* ===================================================================== *)

Section operations.
Local Open Scope go_scope.
Variable w : World.

Definition googleAuth (confData : string) : M (option HttpClient * option error) :=
  r <- call (fun h => JWTConfigFromJSON w h confData SpreadsheetsScope)
            (EvJWTConfigFromJSON confData SpreadsheetsScope) ;;
  match r with
  | inl err => ret (None, Some err)
  | inr conf => ret (Some (oauth2_NewClient conf), None)
  end.

(** [sheets.New]: a nil client is refused, any other client goes to the
    library. *)
Definition New (client : option HttpClient) : M (option Service * option error) :=
  match client with
  | None => ret (None, Some (errors_New "client is nil"))
  | Some c =>
      r <- call (fun h => sheets_New w h c) (EvSheetsNew c) ;;
      match r with
      | Some err => ret (None, Some err)
      | None => ret (Some (sheets_Service c), None)
      end
  end.

(** The block that opens every operation:
    [if googleConf.Client == nil { googleConf.Client, err = googleAuth(...) }];
    the result is [err]. *)
Definition check_google_auth : M (option error) :=
  conf <- get_conf ;;
  match Client conf with
  | None =>
      r <- googleAuth (GoogleCredentials conf) ;;
      set_Client r.1 ;;;
      ret r.2
  | Some _ => ret None
  end.

Definition ClearRange (theRange : string) : M (option error) :=
  err <- check_google_auth ;;
  match err with
  | Some e => ret (Some e)
  | None =>
      conf <- get_conf ;;
      r <- New (Client conf) ;;
      match r.2 with
      | Some e => ret (Some e)
      | None =>
          match r.1 with
          | None => panic nil_dereference
          | Some srv =>
              conf <- get_conf ;;
              call (fun h => Clear_Do w h srv (SpreadsheetID conf) theRange)
                   (EvClearDo srv (SpreadsheetID conf) theRange)
          end
      end
  end.

(** Lines 120-123: the destination range. *)
Definition myRange (destSheet : string) (destRow destCol nbRows nbCols : Z) : string :=
  destSheet +:+ "!" +:+
  ColAddress destCol +:+ Itoa destRow +:+
  ":" +:+
  ColAddress (GoInt.add destCol nbCols) +:+ Itoa (GoInt.add destRow nbRows).

Definition wrong_http_return_code (code : Z) : error :=
  errors_New ("Wrong http return code " +:+ Itoa code +:+ " ").

Definition DataArrayToGoogleSpreadSheet (destSheet : string) (destRow destCol : Z)
    (data : list (list Value)) : M (option error) :=
  let nbRows := GoInt.len data in
  if nbRows =? 0 then ret None else
  first <- lift (slice_get data 0) ;;
  let nbCols := GoInt.len first in
  if nbCols =? 0 then ret None else
  let myRange := myRange destSheet destRow destCol nbRows nbCols in
  let valueRange := mkValueRange "ROWS" data in
  err <- check_google_auth ;;
  match err with
  | Some e => ret (Some e)
  | None =>
      conf <- get_conf ;;
      r <- New (Client conf) ;;
      match r.1 with
      | None => panic nil_dereference
      | Some srv =>
          conf <- get_conf ;;
          res <- call (fun h => Update_Do w h srv (SpreadsheetID conf) myRange
                                  valueRange "USER_ENTERED")
                      (EvUpdateDo srv (SpreadsheetID conf) myRange
                                  valueRange "USER_ENTERED") ;;
          match res with
          | inl e => ret (Some e)
          | inr updateResponse =>
              if (HTTPStatusCode updateResponse <? 200)
                 || (299 <? HTTPStatusCode updateResponse)
              then ret (Some (wrong_http_return_code (HTTPStatusCode updateResponse)))
              else ret None
          end
      end
  end.

Definition DataMapToGoogleSpreadsheet (sheet : string) (row col : Z)
    (data : list (gmap string Value)) : M (option error) :=
  let nbRows := GoInt.len data in
  if nbRows =? 0 then ret None else
  first <- lift (slice_get data 0) ;;
  let nbCols := Z.of_nat (size first) in
  if nbCols =? 0 then ret None else
  valueData <- lift (shape (map_range w) data first nbRows nbCols) ;;
  DataArrayToGoogleSpreadSheet sheet row col valueData.

(** The two results are the slice ([None] for nil) and the error. *)
Definition GoogleSpreadsheetToDataArray (sourceRange : string)
    : M (option (list (list Value)) * option error) :=
  err <- check_google_auth ;;
  match err with
  | Some e => ret (None, Some e)
  | None =>
      conf <- get_conf ;;
      r <- New (Client conf) ;;
      match r.1 with
      | None => panic nil_dereference
      | Some sheetsService =>
          conf <- get_conf ;;
          res <- call (fun h => Get_Do w h sheetsService (SpreadsheetID conf) sourceRange)
                      (EvGetDo sheetsService (SpreadsheetID conf) sourceRange) ;;
          match res with
          | inl e =>
              Printf ("ERROR received on Google Spreadsheet request : " +:+ Error e) ;;;
              ret (None, Some e)
          | inr result =>
              if GoInt.len (Values result) =? 0 then
                Printf ("No values received" +:+ String (byte_of_Z 10) EmptyString) ;;;
                ret (None, Some (errors_New "Empty template"))
              else ret (Some (Values result), None)
          end
      end
  end.

Definition ClearSheet (sourceRange : string) : M (option error) :=
  err <- check_google_auth ;;
  match err with
  | Some e => ret (Some e)
  | None =>
      conf <- get_conf ;;
      r <- New (Client conf) ;;
      match r.1 with
      | None => panic nil_dereference
      | Some sheetsService =>
          conf <- get_conf ;;
          err <- call (fun h => Clear_Do w h sheetsService (SpreadsheetID conf) sourceRange)
                      (EvClearDo sheetsService (SpreadsheetID conf) sourceRange) ;;
          match err with
          | Some e =>
              Printf ("ERROR received on Google Spreadsheet request : " +:+ Error e) ;;;
              ret (Some e)
          | None => ret None
          end
      end
  end.

End operations.

(** One call of an exported operation, with its arguments. *)
Inductive Operation : Type :=
| OpClearRange (theRange : string)
| OpDataMapToGoogleSpreadsheet (sheet : string) (row col : Z)
    (data : list (gmap string Value))
| OpDataArrayToGoogleSpreadSheet (destSheet : string) (destRow destCol : Z)
    (data : list (list Value))
| OpGoogleSpreadsheetToDataArray (sourceRange : string)
| OpClearSheet (sourceRange : string).

(** The state in which a call leaves the configuration and the trace. *)
Definition state_after (w : World) (op : Operation) (st : State) : State :=
  match op with
  | OpClearRange r => (ClearRange w r st).2
  | OpDataMapToGoogleSpreadsheet sheet row col data =>
      (DataMapToGoogleSpreadsheet w sheet row col data st).2
  | OpDataArrayToGoogleSpreadSheet sheet row col data =>
      (DataArrayToGoogleSpreadSheet w sheet row col data st).2
  | OpGoogleSpreadsheetToDataArray r => (GoogleSpreadsheetToDataArray w r st).2
  | OpClearSheet r => (ClearSheet w r st).2
  end.

Definition is_auth (ev : Event) : bool :=
  match ev with EvJWTConfigFromJSON _ _ _ => true | _ => false end.

(** A string occurs inside another one. *)
Definition contains (sub s : string) : Prop :=
  exists pre post : string, s = pre +:+ sub +:+ post.

(* ===================================================================== *)
(** ** Observing a run *)
(* ===================================================================== *)

(** The events that a run from [st] to [st'] added to the trace. *)
Definition new_events (st st' : State) : list Event :=
  drop (length (trace st)) (trace st').

(** The way a configuration may change while the package runs: credentials
    and spreadsheet stay, a cached client stays, a missing client may be
    filled in; with a cached client nothing asks for credentials. *)
Definition evolves (st st' : State) : Prop :=
  exists evs : list Event,
    trace st' = trace st ++ evs /\
    match Client (googleConf st) with
    | Some _ => googleConf st' = googleConf st /\ forallb (fun ev => negb (is_auth ev)) evs = true
    | None =>
        googleConf st' = googleConf st \/
        exists c, googleConf st' = with_Client (Some c) (googleConf st)
    end.

Definition preserving {A} (m : M A) : Prop := forall st, evolves st (m st).2.

(** *** Sample worlds *)

(** The run time visits the keys in the order of the map's own listing. *)
Definition listing_range : MapRange :=
  mkMapRange (fun m => (map_to_list m).*1) (fun m => reflexivity _).

(** The run time visits the keys in the opposite order. *)
Definition reverse_range : MapRange :=
  mkMapRange (fun m => reverse (map_to_list m).*1)
             (fun m => reverse_Permutation _).

(** A world in which the key parses, the service is built, every update
    is answered with the status [status], every read with [rows], and every
    clear succeeds. *)
Definition sample_world (status : Z) (rows : list (list Value)) : World :=
  mkWorld reverse_range
    (fun _ _ _ => inr (JWTConfig_at 1%N))
    (fun _ _ => None)
    (fun _ _ _ _ _ _ => inr (mkUpdateValuesResponse status))
    (fun _ _ _ _ => inr (mkValueRange "ROWS" rows))
    (fun _ _ _ _ => None).

Definition sample_conf : Config := mkConfig "{}" "sheet-id" None.

Definition sample_state : State := mkState sample_conf [].

Definition sample_client : HttpClient := oauth2_NewClient (JWTConfig_at 7%N).

Definition cached_state : State :=
  mkState (mkConfig "{}" "sheet-id" (Some sample_client)) [].

(** The rows [{"b": 1, "a": 2}] of the specification's example. *)
Definition sample_row : gmap string Value :=
  <["b"%string := VInt 1]> (<["a"%string := VInt 2]> ∅).

(* ===================================================================== *)
(** ** Column names, sequences of operations and what a run did *)
(* ===================================================================== *)

(** The name of column [n] in a spreadsheet (A, ..., Z, AA, AB, ...):
    bijective base 26, most significant letter first.  The fuel bounds the
    number of letters. *)
Fixpoint A1_column_fuel (fuel : nat) (n : Z) : string :=
  match fuel with
  | O => EmptyString
  | S fuel' =>
      if n <=? 0 then EmptyString
      else A1_column_fuel fuel' ((n - 1) / 26)
           +:+ String (letter_at ((n - 1) mod 26)) EmptyString
  end.

Definition A1_column (n : Z) : string := A1_column_fuel 14 n.

(** The error result of an operation; a read also returns a slice. *)
Definition result_error (w : World) (op : Operation) (st : State)
    : Outcome (option error) :=
  match op with
  | OpClearRange r => (ClearRange w r st).1
  | OpDataMapToGoogleSpreadsheet sheet row col data =>
      (DataMapToGoogleSpreadsheet w sheet row col data st).1
  | OpDataArrayToGoogleSpreadSheet sheet row col data =>
      (DataArrayToGoogleSpreadSheet w sheet row col data st).1
  | OpGoogleSpreadsheetToDataArray r =>
      match (GoogleSpreadsheetToDataArray w r st).1 with
      | Returns res => Returns res.2
      | Panics msg => Panics msg
      end
  | OpClearSheet r => (ClearSheet w r st).1
  end.

(** A write that has data to send: a first row with a cell, or with a key
    and with lengths that a Go slice or map can have. *)
Definition has_data (op : Operation) : Prop :=
  match op with
  | OpDataArrayToGoogleSpreadSheet _ _ _ data =>
      exists cell first rest, data = (cell :: first) :: rest
  | OpDataMapToGoogleSpreadsheet _ _ _ data =>
      exists first rest,
        data = first :: rest /\ size first <> 0%nat
        /\ Z.of_nat (size first) < GoInt.int_max
        /\ GoInt.len data < GoInt.int_max
  | _ => True
  end.

(** Operations one after the other on the same configuration. *)
Fixpoint run_all (w : World) (ops : list Operation) (st : State) : State :=
  match ops with
  | [] => st
  | op :: ops' => run_all w ops' (state_after w op st)
  end.

(** The keys that were parsed with success, in the order of the trace. *)
Definition successful_auths (evs : list Event) : list JWTConfig :=
  omap (fun ev =>
          match ev with
          | EvJWTConfigFromJSON _ _ (inr conf) => Some conf
          | _ => None
          end) evs.

(** An authentication, if the event is one, parses the credentials of the
    configuration for the scope of spreadsheets. *)
Definition auth_uses (conf : Config) (ev : Event) : Prop :=
  match ev with
  | EvJWTConfigFromJSON confData scope _ =>
      confData = GoogleCredentials conf /\ scope = SpreadsheetsScope
  | _ => True
  end.

(** How client and trace move together: a cached client is kept and
    nothing is parsed; a missing client stays missing as long as no parse
    succeeds, and the first parse that succeeds yields the cached client. *)
Definition settles (st st' : State) : Prop :=
  exists evs : list Event,
    trace st' = trace st ++ evs /\
    Forall (auth_uses (googleConf st)) evs /\
    match Client (googleConf st) with
    | Some _ =>
        googleConf st' = googleConf st /\
        forallb (fun ev => negb (is_auth ev)) evs = true
    | None =>
        (googleConf st' = googleConf st /\ successful_auths evs = [])
        \/ exists conf,
             googleConf st' = with_Client (Some (oauth2_NewClient conf)) (googleConf st)
             /\ successful_auths evs = [conf]
    end.

Definition settling {A} (m : M A) : Prop := forall st, settles st (m st).2.

(** The calls that go to the remote service. *)
Definition is_service_call (ev : Event) : bool :=
  match ev with
  | EvUpdateDo _ _ _ _ _ _ | EvGetDo _ _ _ _ | EvClearDo _ _ _ _ => true
  | _ => false
  end.

Definition is_sheets_New (ev : Event) : bool :=
  match ev with EvSheetsNew _ _ => true | _ => false end.

Definition is_Printf (ev : Event) : bool :=
  match ev with EvPrintf _ => true | _ => false end.

(** The spreadsheet and the range that a call to the service names. *)
Definition call_target (ev : Event) : option (string * string) :=
  match ev with
  | EvUpdateDo _ id rng _ _ _ | EvGetDo _ id rng _ | EvClearDo _ id rng _ => Some (id, rng)
  | _ => None
  end.

(** Two rows hold the same value under every key of the first row. *)
Definition agree_on (first rowvalue rowvalue' : gmap string Value) : Prop :=
  forall k, is_Some (first !! k) -> rowvalue !! k = rowvalue' !! k.

(** A world like [sample_world] whose credentials do not parse. *)
Definition refusing_world : World :=
  mkWorld listing_range
    (fun _ _ _ => inl (errors_New "invalid character"))
    (fun _ _ => None)
    (fun _ _ _ _ _ _ => inr (mkUpdateValuesResponse 200))
    (fun _ _ _ _ => inr (mkValueRange "ROWS" []))
    (fun _ _ _ _ => None).

(** A world in which the service cannot be built and every call to the
    service is refused. *)
Definition failing_world : World :=
  mkWorld listing_range
    (fun _ _ _ => inr (JWTConfig_at 1%N))
    (fun _ _ => Some (errors_New "no service"))
    (fun _ _ _ _ _ _ => inl (errors_New "quota"))
    (fun _ _ _ _ => inl (errors_New "quota"))
    (fun _ _ _ _ => Some (errors_New "quota")).

(** A world in which the service is built and every call to it is refused. *)
Definition quota_world : World :=
  mkWorld listing_range
    (fun _ _ _ => inr (JWTConfig_at 1%N))
    (fun _ _ => None)
    (fun _ _ _ _ _ _ => inl (errors_New "quota"))
    (fun _ _ _ _ => inl (errors_New "quota"))
    (fun _ _ _ _ => Some (errors_New "quota")).

(** The result of an operation repeats what the service answered: the
    error of an update or of a read that failed, and whatever a clear
    answered. *)
Definition mirrors (evs : list Event) (res : Outcome (option error)) : Prop :=
  (forall srv id rng body opt e,
     In (EvUpdateDo srv id rng body opt (inl e)) evs -> res = Returns (Some e))
  /\ (forall srv id rng e,
        In (EvGetDo srv id rng (inl e)) evs -> res = Returns (Some e))
  /\ (forall srv id rng r,
        In (EvClearDo srv id rng r) evs -> res = Returns r).

(** The spreadsheet and range of each call to the service, in order. *)
Definition service_calls (evs : list Event) : list (string * string) :=
  omap call_target evs.

(** The range that the caller of a read or of a clear passes. *)
Definition caller_range (op : Operation) : option string :=
  match op with
  | OpClearRange r | OpGoogleSpreadsheetToDataArray r | OpClearSheet r => Some r
  | _ => None
  end.

Definition count_events (p : Event -> bool) (evs : list Event) : nat :=
  length (List.filter p evs).

(** An operation calls the service at most once, for the configured
    spreadsheet, with the caller's range when the caller passes one, and
    parses credentials and builds the service at most once. *)
Definition frugal (conf : Config) (range : option string) (evs : list Event) : Prop :=
  (service_calls evs = []
   \/ exists rng, service_calls evs = [(SpreadsheetID conf, rng)]
                  /\ forall r, range = Some r -> rng = r)
  /\ (count_events is_auth evs <= 1)%nat
  /\ (count_events is_sheets_New evs <= 1)%nat.

(** The three calls of the service that the package uses. *)
Inductive CallKind : Type := UpdateCall | GetCall | ClearCall.

Definition call_kind (ev : Event) : option CallKind :=
  match ev with
  | EvUpdateDo _ _ _ _ _ _ => Some UpdateCall
  | EvGetDo _ _ _ _ => Some GetCall
  | EvClearDo _ _ _ _ => Some ClearCall
  | _ => None
  end.

(** The call that an operation is meant to make. *)
Definition operation_kind (op : Operation) : CallKind :=
  match op with
  | OpDataMapToGoogleSpreadsheet _ _ _ _ | OpDataArrayToGoogleSpreadSheet _ _ _ _ =>
      UpdateCall
  | OpGoogleSpreadsheetToDataArray _ => GetCall
  | OpClearRange _ | OpClearSheet _ => ClearCall
  end.

Definition only_calls (kind : CallKind) (evs : list Event) : Prop :=
  forall ev, In ev evs -> call_kind ev = None \/ call_kind ev = Some kind.

(* ===================================================================== *)
(** * Properties *)
(* ===================================================================== *)

Section ColAddress_facts.

Lemma wrap_small z : GoInt.in_range z -> GoInt.wrap z = z.
Proof.
  unfold GoInt.in_range, GoInt.wrap, GoInt.int_min, GoInt.int_max.
  intros Hz. rewrite Z.mod_small; lia.
Qed.

Lemma encoderune_ascii r : 0 <= r <= 127 -> encoderune r = String (byte_of_Z r) EmptyString.
Proof.
  intros Hr. unfold encoderune, MaxRune, RuneError.
  replace (r <? 0) with false by lia.
  replace (1114111 <? r) with false by lia.
  replace (55296 <=? r) with false by lia.
  simpl. replace (r <=? 127) with true by lia. reflexivity.
Qed.

(** A code point [65 + k] with a small offset [k >= -1] is one byte. *)
Lemma letter_conversion k :
  -1 <= k <= 25 ->
  string_of_int (GoInt.sub (GoInt.add rune_A (k + 1)) 1) = String (letter_at k) EmptyString.
Proof.
  intros Hk. unfold string_of_int, GoInt.sub, GoInt.add, rune_A, letter_at.
  rewrite (wrap_small (65 + (k + 1)))
    by (unfold GoInt.in_range, GoInt.int_min, GoInt.int_max; lia).
  rewrite wrap_small by (unfold GoInt.in_range, GoInt.int_min, GoInt.int_max; lia).
  rewrite encoderune_ascii by lia. f_equal. f_equal. lia.
Qed.

Lemma quot26 col : 0 <= col <= 674 -> GoInt.quot col 26 = col / 26.
Proof.
  intros Hc. unfold GoInt.quot. rewrite Z.quot_div_nonneg by lia.
  apply wrap_small. unfold GoInt.in_range, GoInt.int_min, GoInt.int_max.
  assert (0 <= col / 26 < 26); [|lia].
  split; [apply Z.div_pos; lia|]. apply Z.div_lt_upper_bound; lia.
Qed.

Lemma rem26 col : 0 <= col -> GoInt.rem col 26 = col mod 26.
Proof. intros Hc. unfold GoInt.rem. apply Z.rem_mod_nonneg; lia. Qed.

Lemma ColAddress_two_letters col :
  27 <= col <= 674 ->
  ColAddress col =
    String (letter_at (col / 26 - 1)) (String (letter_at (col mod 26 - 1)) EmptyString).
Proof.
  intros Hc. unfold ColAddress.
  replace (675 <=? col) with false by lia.
  replace (col <? 1) with false by lia.
  replace (col <=? 26) with false by lia. simpl.
  rewrite quot26, rem26 by lia.
  assert (1 <= col / 26 < 26).
  { split; [apply Z.div_le_lower_bound; lia | apply Z.div_lt_upper_bound; lia]. }
  assert (0 <= col mod 26 < 26) by (apply Z.mod_pos_bound; lia).
  replace (col / 26) with ((col / 26 - 1) + 1) at 1 by lia.
  replace (col mod 26) with ((col mod 26 - 1) + 1) at 1 by lia.
  rewrite !letter_conversion by lia. reflexivity.
Qed.

End ColAddress_facts.

Section sort_facts.

Lemma ascii_compare_refl a : Ascii.compare a a = Eq.
Proof. unfold Ascii.compare. apply N.compare_refl. Qed.

Lemma string_le_cons a1 a2 s1 s2 :
  string_le (String a1 s1) (String a2 s2) <->
  (N_of_ascii a1 < N_of_ascii a2)%N \/ (a1 = a2 /\ string_le s1 s2).
Proof.
  unfold string_le, String.leb. simpl. unfold Ascii.compare.
  destruct (N.compare_spec (N_of_ascii a1) (N_of_ascii a2)) as [E|L|G].
  - assert (a1 = a2) by (rewrite <- (ascii_N_embedding a1), <- (ascii_N_embedding a2); congruence).
    split; [intros; right; done | intros [?|[_ ?]]; [lia | done]].
  - split; [by left | done].
  - split; [done | intros [?|[-> _]]; lia].
Qed.

Global Instance string_le_trans : Transitive string_le.
Proof.
  intros s1. induction s1 as [|a1 s1 IH]; intros [|a2 s2] [|a3 s3]; try done.
  rewrite !string_le_cons. intros [?|[-> ?]] [?|[-> ?]]; [left; lia | by left | by left |].
  right. split; [done | by eapply IH].
Qed.

Global Instance string_le_antisym : AntiSymm (=) string_le.
Proof. intros s1 s2. apply String.leb_antisym. Qed.

Global Instance string_le_total : Total string_le.
Proof. intros s1 s2. apply String.leb_total. Qed.

Lemma sort_Strings_sorted l : Sorted string_le (sort_Strings l).
Proof. apply Sorted_merge_sort, _. Qed.

Lemma sort_Strings_perm l : sort_Strings l ≡ₚ l.
Proof. apply merge_sort_Permutation. Qed.

(** The result of sorting depends on the elements only, not on the order
    in which they came. *)
Lemma sort_Strings_order_irrelevant l1 l2 :
  l1 ≡ₚ l2 -> sort_Strings l1 = sort_Strings l2.
Proof.
  intros Hp. apply (Sorted_unique string_le); try apply sort_Strings_sorted.
  by rewrite !sort_Strings_perm.
Qed.

End sort_facts.

Section shape_facts.
Local Open Scope outcome_scope.

Lemma len_in_range {A} (l : list A) :
  GoInt.len l < GoInt.int_max -> GoInt.add (GoInt.len l) 1 = GoInt.len l + 1.
Proof.
  intros H. unfold GoInt.add. apply wrap_small.
  unfold GoInt.in_range, GoInt.int_min, GoInt.int_max, GoInt.len in *. lia.
Qed.

Lemma make_nonneg {A} (zero : A) (n : nat) :
  make zero (Z.of_nat n) = Returns (replicate n zero).
Proof.
  unfold make. rewrite (proj2 (Z.ltb_ge _ _)) by lia.
  by rewrite Nat2Z.id.
Qed.

Lemma slice_set_middle {A} (pre post : list A) (old x : A) :
  slice_set (pre ++ old :: post) (GoInt.len pre) x = Returns (pre ++ x :: post).
Proof.
  unfold slice_set, GoInt.len. rewrite length_app. simpl.
  rewrite (proj2 (Z.leb_le _ _)) by lia.
  rewrite (proj2 (Z.ltb_lt _ _)) by lia.
  simpl. rewrite Nat2Z.id. rewrite insert_app_r_alt by lia. by rewrite Nat.sub_diag.
Qed.

Lemma slice_get_middle {A} (pre post : list A) (x : A) :
  slice_get (pre ++ x :: post) (GoInt.len pre) = Returns x.
Proof.
  unfold slice_get, GoInt.len.
  rewrite (proj2 (Z.leb_le _ _)) by lia.
  rewrite Nat2Z.id. by rewrite list_lookup_middle.
Qed.

Lemma fill_keys_spec (visited : list string) :
  forall pre post : list string,
    length post = length visited ->
    GoInt.len (pre ++ post) < GoInt.int_max ->
    fill_keys visited (pre ++ post) (GoInt.len pre) = Returns (pre ++ visited).
Proof.
  induction visited as [|k visited IH]; intros pre [|p post] Hlen Hmax;
    try discriminate; [done|].
  simpl. rewrite slice_set_middle. simpl.
  assert (Hpre : GoInt.len pre < GoInt.int_max).
  { revert Hmax. unfold GoInt.len. rewrite length_app. simpl. lia. }
  rewrite (len_in_range pre Hpre).
  replace (GoInt.len pre + 1) with (GoInt.len (pre ++ [k]))
    by (unfold GoInt.len; rewrite length_app; simpl; lia).
  replace (pre ++ k :: post) with ((pre ++ [k]) ++ post) by (by rewrite <- app_assoc).
  rewrite IH.
  - by rewrite <- app_assoc.
  - simpl in Hlen. lia.
  - revert Hmax. unfold GoInt.len. rewrite !length_app. simpl. lia.
Qed.

(** One line of [valueData] filled from left to right. *)
Lemma fill_line (f : string -> Value) (ri : Z) (keys : list string) :
  forall (before after : list (list Value)) (pre post : list Value),
    ri = GoInt.len before ->
    length post = length keys ->
    for_range keys (GoInt.len pre)
      (fun c k valueData => set_cell valueData ri c (f k))
      (before ++ (pre ++ post) :: after)
    = Returns (before ++ (pre ++ (f <$> keys)) :: after).
Proof.
  induction keys as [|k keys IH]; intros before after pre [|p post] Hri Hlen;
    try discriminate; [done|].
  simpl. unfold set_cell at 1. subst ri.
  rewrite slice_get_middle. simpl.
  rewrite slice_set_middle. simpl.
  rewrite slice_set_middle. simpl.
  replace (GoInt.len pre + 1) with (GoInt.len (pre ++ [f k]))
    by (unfold GoInt.len; rewrite length_app; simpl; lia).
  replace (pre ++ f k :: post) with ((pre ++ [f k]) ++ post) by (by rewrite <- app_assoc).
  rewrite IH; [by rewrite <- app_assoc | done | simpl in Hlen; lia].
Qed.

(** The loop over the rows: line [row + 1] receives the cells of
    [data[row]]. *)
Lemma fill_rows (keys : list string) (data : list (gmap string Value)) :
  forall (top pending : list (list Value)) (n : nat),
    length top = S n ->
    length pending = length data ->
    Z.of_nat n + GoInt.len data < GoInt.int_max ->
    for_range data (Z.of_nat n)
      (fun row rowvalue valueData =>
         line <- make VNil (GoInt.len keys) ;;
         valueData <- slice_set valueData (GoInt.add row 1) line ;;
         for_range keys 0
           (fun col k valueData =>
              set_cell valueData (GoInt.add row 1) col (scan_cell rowvalue k))
           valueData)
      (top ++ pending)
    = Returns (top ++ ((fun rowvalue => scan_cell rowvalue <$> keys) <$> data)).
Proof.
  induction data as [|rowvalue data IH]; intros top [|p pending] n Htop Hlen Hmax;
    try discriminate; [done|].
  cbn [for_range]. unfold GoInt.len at 1. rewrite make_nonneg. cbn [obind].
  assert (Hrow : GoInt.add (Z.of_nat n) 1 = GoInt.len top).
  { unfold GoInt.add, GoInt.len. rewrite Htop. rewrite wrap_small; [lia|].
    revert Hmax. unfold GoInt.in_range, GoInt.int_min, GoInt.int_max, GoInt.len.
    simpl length. lia. }
  rewrite Hrow, slice_set_middle. cbn [obind].
  pose proof (fill_line (scan_cell rowvalue) (GoInt.len top) keys top pending []
                (replicate (length keys) VNil) eq_refl (length_replicate _ _)) as Hline.
  change (GoInt.len (@nil Value)) with 0 in Hline. cbn [app] in Hline.
  rewrite Hline. clear Hline.
  replace (top ++ (scan_cell rowvalue <$> keys) :: pending)
    with ((top ++ [scan_cell rowvalue <$> keys]) ++ pending) by (by rewrite <- app_assoc).
  replace (Z.of_nat n + 1) with (Z.of_nat (S n)) by lia.
  cbn [obind]. rewrite IH.
  - by rewrite <- app_assoc.
  - rewrite length_app. simpl. lia.
  - simpl in Hlen. lia.
  - revert Hmax. unfold GoInt.len. simpl length. lia.
Qed.

Lemma range_keys_length (mr : MapRange) (m : gmap string Value) :
  length (range_keys mr m) = size m.
Proof.
  rewrite (Permutation_length (range_keys_perm mr m)).
  by rewrite length_fmap, length_map_to_list.
Qed.

Lemma sorted_keys_length (m : gmap string Value) : length (sorted_keys m) = size m.
Proof.
  unfold sorted_keys. rewrite (Permutation_length (sort_Strings_perm _)).
  by rewrite length_fmap, length_map_to_list.
Qed.

(** Whatever order the run time visits the first row in, and whatever the
    rows hold, the shaping loops run to completion and build the header
    line followed by one line of scanned cells per row. *)
Lemma shape_returns (mr : MapRange) (first : gmap string Value)
    (rest : list (gmap string Value)) :
  Z.of_nat (size first) < GoInt.int_max ->
  GoInt.len (first :: rest) < GoInt.int_max ->
  shape mr (first :: rest) first (GoInt.len (first :: rest)) (Z.of_nat (size first))
  = Returns (shapeMapRows (first :: rest)).
Proof.
  intros Hcols Hrows. unfold shape. set (data := first :: rest) in *.
  rewrite !make_nonneg. cbn [obind].
  (* the keys, in the order of the run time *)
  pose proof (fill_keys_spec (range_keys mr first) [] (replicate (size first) EmptyString)) as Hk.
  change (GoInt.len (@nil string)) with 0 in Hk. cbn [app] in Hk.
  rewrite Hk; clear Hk; cbn [obind].
  2: { by rewrite length_replicate, range_keys_length. }
  2: { unfold GoInt.len. by rewrite length_replicate. }
  rewrite (sort_Strings_order_irrelevant _ _ (range_keys_perm mr first)).
  fold (sorted_keys first). set (keys := sorted_keys first).
  (* the slice of lines *)
  rewrite (len_in_range data Hrows).
  replace (GoInt.len data + 1) with (Z.of_nat (S (length data)))
    by (unfold GoInt.len; lia).
  rewrite make_nonneg. cbn [obind replicate].
  pose proof (slice_set_middle [] (replicate (length data) [])
                [] (replicate (size first) VNil)) as Hs.
  change (GoInt.len (@nil (list Value))) with 0 in Hs. cbn [app] in Hs.
  rewrite Hs; clear Hs; cbn [obind].
  (* the header line *)
  pose proof (fill_line VString 0 keys [] (replicate (length data) []) []
                (replicate (size first) VNil) eq_refl) as Hh.
  change (GoInt.len (@nil Value)) with 0 in Hh. cbn [app] in Hh.
  rewrite Hh; clear Hh; cbn [obind].
  2: { by rewrite length_replicate; unfold keys; rewrite sorted_keys_length. }
  (* the lines of the rows *)
  pose proof (fill_rows keys data [VString <$> keys] (replicate (length data) []) 0) as Hr.
  cbn [app] in Hr. change (Z.of_nat 0) with 0 in Hr.
  change (GoInt.len keys) with (Z.of_nat (length keys)) in Hr.
  rewrite make_nonneg in Hr. cbn [obind] in Hr.
  assert (Hlen : length keys = size first) by apply sorted_keys_length.
  rewrite Hlen in Hr.
  rewrite Hr; [done | done | by rewrite length_replicate | lia].
Qed.

End shape_facts.

Section monad_facts.
Local Open Scope go_scope.

Lemma evolves_refl st : evolves st st.
Proof.
  exists []. split; [by rewrite app_nil_r|].
  destruct (Client (googleConf st)); auto.
Qed.

Lemma evolves_trans st1 st2 st3 : evolves st1 st2 -> evolves st2 st3 -> evolves st1 st3.
Proof.
  intros (evs1 & Ht1 & H1) (evs2 & Ht2 & H2).
  exists (evs1 ++ evs2). split; [by rewrite Ht2, Ht1, app_assoc|].
  destruct (Client (googleConf st1)) as [c1|] eqn:E1.
  - destruct H1 as [Hc1 Hn1]. rewrite Hc1, E1 in H2. destruct H2 as [Hc2 Hn2].
    split; [congruence|]. rewrite forallb_app, Hn1, Hn2. done.
  - destruct H1 as [Hc1|[c Hc1]].
    + rewrite Hc1, E1 in H2. exact H2.
    + rewrite Hc1 in H2. simpl in H2. destruct H2 as [Hc2 _].
      right. exists c. congruence.
Qed.

Lemma preserving_ret {A} (a : A) : preserving (ret a).
Proof. intros st. apply evolves_refl. Qed.

Lemma preserving_panic {A} msg : preserving (@panic A msg).
Proof. intros st. apply evolves_refl. Qed.

Lemma preserving_lift {A} (o : Outcome A) : preserving (lift o).
Proof. intros st. apply evolves_refl. Qed.

Lemma preserving_get_conf : preserving get_conf.
Proof. intros st. apply evolves_refl. Qed.

Lemma preserving_bind {A B} (m : M A) (k : A -> M B) :
  preserving m -> (forall a, preserving (k a)) -> preserving (bind m k).
Proof.
  intros Hm Hk st. unfold bind. specialize (Hm st).
  destruct (m st) as [[a|msg] st1]; simpl in *; [|done].
  eapply evolves_trans; [exact Hm | apply Hk].
Qed.

Lemma preserving_event {A} (ask : list Event -> A) (ev : A -> Event) :
  (forall a, is_auth (ev a) = false) -> preserving (call ask ev).
Proof.
  intros Hev st. exists [ev (ask (trace st))]. split; [done|]. simpl.
  rewrite Hev. destruct (Client (googleConf st)); auto.
Qed.

Lemma preserving_Printf format : preserving (Printf format).
Proof.
  intros st. exists [EvPrintf format]. split; [done|]. simpl.
  destruct (Client (googleConf st)); auto.
Qed.

Lemma preserving_check_google_auth w : preserving (check_google_auth w).
Proof.
  intros st. unfold check_google_auth, bind, get_conf. simpl.
  destruct (Client (googleConf st)) as [c|] eqn:E; simpl.
  - exists []. rewrite app_nil_r, E. done.
  - unfold googleAuth, bind, call. simpl.
    destruct (JWTConfigFromJSON w (trace st) _ _) as [err|jc]; simpl;
      eexists; (split; [reflexivity|]); rewrite E.
    + left. destruct (googleConf st); simpl in *. by subst.
    + right. by eexists.
Qed.

Lemma preserving_New w client : preserving (New w client).
Proof.
  destruct client as [c|]; simpl; [|apply preserving_ret].
  apply preserving_bind; [by apply preserving_event|].
  intros [e|]; apply preserving_ret.
Qed.

End monad_facts.

Lemma new_events_refl st : new_events st st = [].
Proof. unfold new_events. by rewrite drop_all. Qed.

Lemma new_events_app st conf evs :
  new_events st (mkState conf (trace st ++ evs)) = evs.
Proof. unfold new_events. simpl. by rewrite drop_app_length. Qed.

(** Split on each answer of the world that the goal depends on. *)
Ltac split_world :=
  repeat (simpl;
    match goal with
    | |- context [Client (googleConf ?st)] =>
        is_var st; destruct (Client (googleConf st)) eqn:?
    | |- context [JWTConfigFromJSON ?w ?h ?a ?b] =>
        destruct (JWTConfigFromJSON w h a b) eqn:?
    | |- context [sheets_New ?w ?h ?c] => destruct (sheets_New w h c) eqn:?
    | |- context [Get_Do ?w ?h ?s ?i ?r] => destruct (Get_Do w h s i r) eqn:?
    | |- context [Update_Do ?w ?h ?s ?i ?r ?b ?o] =>
        destruct (Update_Do w h s i r b o) eqn:?
    | |- context [Clear_Do ?w ?h ?s ?i ?r] => destruct (Clear_Do w h s i r) eqn:?
    end).

(** Split on the remaining conditionals and read off the new events. *)
Ltac split_branches :=
  repeat match goal with
         | |- context [if ?b then _ else _] => destruct b
         end;
  simpl; rewrite <- ?app_assoc; simpl;
  rewrite ?new_events_refl, ?new_events_app; simpl.

(** Unfold one operation down to the answers of the world. *)
Ltac run_operation :=
  unfold check_google_auth, googleAuth, New, bind, call, get_conf, set_Client,
    ret, panic, lift, Printf;
  split_world; simpl;
  rewrite <- ?app_assoc; simpl;
  rewrite ?new_events_refl, ?new_events_app.

Section operation_facts.

Lemma len_cons_nonzero {A} (x : A) (l : list A) : (GoInt.len (x :: l) =? 0) = false.
Proof. unfold GoInt.len. simpl length. apply Z.eqb_neq. lia. Qed.

Lemma len_cons {A} (x : A) (l : list A) : GoInt.len (x :: l) = GoInt.len l + 1.
Proof. unfold GoInt.len. simpl length. lia. Qed.

Lemma size_nonzero (m : gmap string Value) :
  size m <> 0%nat -> (Z.of_nat (size m) =? 0) = false.
Proof. intros H. apply Z.eqb_neq. lia. Qed.

Lemma slice_get_head {A} (x : A) (l : list A) : slice_get (x :: l) 0 = Returns x.
Proof. reflexivity. Qed.

Lemma bind_lift_Returns {A B} (a : A) (k : A -> M B) :
  bind (lift (Returns a)) k = k a.
Proof. reflexivity. Qed.

(** Past the two early returns, what remains of the write. *)
Lemma DataArrayToGoogleSpreadSheet_nonempty w destSheet destRow destCol cell first rest :
  DataArrayToGoogleSpreadSheet w destSheet destRow destCol ((cell :: first) :: rest)
  = bind (check_google_auth w) (fun err =>
      match err with
      | Some e => ret (Some e)
      | None =>
          bind get_conf (fun conf =>
          bind (New w (Client conf)) (fun r =>
          match r.1 with
          | None => panic nil_dereference
          | Some srv =>
              bind get_conf (fun conf =>
              bind (call (fun h => Update_Do w h srv (SpreadsheetID conf)
                                     (myRange destSheet destRow destCol
                                        (GoInt.len ((cell :: first) :: rest))
                                        (GoInt.len (cell :: first)))
                                     (mkValueRange "ROWS" ((cell :: first) :: rest))
                                     "USER_ENTERED")
                         (EvUpdateDo srv (SpreadsheetID conf)
                            (myRange destSheet destRow destCol
                               (GoInt.len ((cell :: first) :: rest))
                               (GoInt.len (cell :: first)))
                            (mkValueRange "ROWS" ((cell :: first) :: rest))
                            "USER_ENTERED"))
                   (fun res =>
                      match res with
                      | inl e => ret (Some e)
                      | inr updateResponse =>
                          if (HTTPStatusCode updateResponse <? 200)
                             || (299 <? HTTPStatusCode updateResponse)
                          then ret (Some (wrong_http_return_code
                                            (HTTPStatusCode updateResponse)))
                          else ret None
                      end))
          end))
      end).
Proof.
  unfold DataArrayToGoogleSpreadSheet.
  rewrite len_cons_nonzero, slice_get_head, bind_lift_Returns, len_cons_nonzero.
  reflexivity.
Qed.

Ltac preserve :=
  repeat first
    [ apply preserving_ret | apply preserving_panic | apply preserving_lift
    | apply preserving_get_conf | apply preserving_check_google_auth
    | apply preserving_New | apply preserving_Printf
    | apply preserving_event; done
    | apply preserving_bind
    | match goal with |- forall _, _ => intro end; cbv beta
    | match goal with |- preserving (match ?x with _ => _ end) => destruct x end ].

Lemma preserving_ClearRange w r : preserving (ClearRange w r).
Proof. unfold ClearRange. preserve. Qed.

Lemma preserving_DataArrayToGoogleSpreadSheet w sheet row col data :
  preserving (DataArrayToGoogleSpreadSheet w sheet row col data).
Proof. unfold DataArrayToGoogleSpreadSheet. preserve. Qed.

Lemma preserving_DataMapToGoogleSpreadsheet w sheet row col data :
  preserving (DataMapToGoogleSpreadsheet w sheet row col data).
Proof.
  unfold DataMapToGoogleSpreadsheet.
  preserve; apply preserving_DataArrayToGoogleSpreadSheet.
Qed.

Lemma preserving_GoogleSpreadsheetToDataArray w r :
  preserving (GoogleSpreadsheetToDataArray w r).
Proof. unfold GoogleSpreadsheetToDataArray. preserve. Qed.

Lemma preserving_ClearSheet w r : preserving (ClearSheet w r).
Proof. unfold ClearSheet. preserve. Qed.

Lemma evolves_after w op st : evolves st (state_after w op st).
Proof.
  destruct op; simpl.
  - apply preserving_ClearRange.
  - apply preserving_DataMapToGoogleSpreadsheet.
  - apply preserving_DataArrayToGoogleSpreadSheet.
  - apply preserving_GoogleSpreadsheetToDataArray.
  - apply preserving_ClearSheet.
Qed.

End operation_facts.

Lemma scan_cell_coerce rowvalue k :
  scan_cell rowvalue k = VString (coerce (map_index rowvalue k)).
Proof.
  unfold scan_cell, coerce. by destruct (Scan NullString_zero (map_index rowvalue k)).
Qed.

Lemma sorted_keys_elem (m : gmap string Value) (k : string) :
  k ∈ sorted_keys m <-> is_Some (m !! k).
Proof.
  unfold sorted_keys. rewrite sort_Strings_perm.
  rewrite list_elem_of_fmap. split.
  - intros ([k' v] & -> & Hin). apply elem_of_map_to_list in Hin. by exists v.
  - intros [v Hv]. exists (k, v). split; [done|]. by apply elem_of_map_to_list.
Qed.

(* ===================================================================== *)
(** ** Claims *)
(* ===================================================================== *)

(** C1: on the whole domain [1, 674] [ColAddress] is the specification's
    piecewise function: one letter at offset [col-1] from 'A' up to 26, and
    from 27 on the two characters at offsets [floor(col/26)-1] and
    [(col mod 26)-1] from 'A'. *)
Theorem ColAddress_piecewise (col : Z) :
  1 <= col <= 674 -> ColAddress col = spec_columnAddress col.
Proof.
  intros Hc. unfold spec_columnAddress.
  destruct (Z.leb_spec col 26) as [Hle|Hgt].
  - unfold ColAddress.
    replace (675 <=? col) with false by lia.
    replace (col <? 1) with false by lia.
    replace (col <=? 26) with true by lia. simpl.
    replace col with ((col - 1) + 1) at 1 by lia.
    apply letter_conversion. lia.
  - apply ColAddress_two_letters. lia.
Qed.

Lemma ColAddress_piecewise_witness :
  ColAddress 28 = spec_columnAddress 28 /\ ColAddress 28 = "AB"%string.
Proof. split; [apply (ColAddress_piecewise 28); lia | reflexivity]. Defined.

(** C2: below 1 and from 675 on, [ColAddress] returns the empty string. *)
Theorem ColAddress_out_of_domain (col : Z) :
  col < 1 \/ 675 <= col -> ColAddress col = EmptyString.
Proof.
  intros Hc. unfold ColAddress.
  destruct (Z.leb_spec 675 col), (Z.ltb_spec col 1); simpl; try reflexivity; lia.
Qed.

Lemma ColAddress_out_of_domain_witness :
  ColAddress 0 = EmptyString /\ ColAddress 675 = EmptyString.
Proof.
  split; [apply (ColAddress_out_of_domain 0) | apply (ColAddress_out_of_domain 675)]; lia.
Defined.

(** C3: for data with a non-empty first row, every update that
    [DataArrayToGoogleSpreadSheet] issues is addressed to
    sheet + "!" + ColAddress(destCol) + destRow + ":" +
    ColAddress(destCol + nbCols) + (destRow + nbRows), the sums being those
    of Go's [int] (and the plain sums whenever they fit), and with a cached
    client and a service that can be built the update is issued; for sheet
    "Sheet1", row 2, column 2, three rows and two columns the end address
    comes from column 4 and row 5, and the range is "Sheet1!B2:D5". *)
Theorem write_target_range (w : World) (destSheet : string) (destRow destCol : Z)
    (first : list Value) (rest : list (list Value)) (st : State) :
  first <> [] ->
  let data := first :: rest in
  let nbRows := GoInt.len data in
  let nbCols := GoInt.len first in
  let st' := (DataArrayToGoogleSpreadSheet w destSheet destRow destCol data st).2 in
  let target :=
    destSheet +:+ "!" +:+ ColAddress destCol +:+ Itoa destRow +:+ ":" +:+
    ColAddress (GoInt.add destCol nbCols) +:+ Itoa (GoInt.add destRow nbRows) in
  (forall srv id rng body opt res,
     In (EvUpdateDo srv id rng body opt res) (new_events st st') ->
     rng = target /\ body = mkValueRange "ROWS" data /\ opt = "USER_ENTERED"%string)
  /\ (forall c, Client (googleConf st) = Some c -> sheets_New w (trace st) c = None ->
      exists res,
        new_events st st' =
          [EvSheetsNew c None;
           EvUpdateDo (sheets_Service c) (SpreadsheetID (googleConf st)) target
             (mkValueRange "ROWS" data) "USER_ENTERED" res])
  /\ (GoInt.in_range (destCol + nbCols) -> GoInt.in_range (destRow + nbRows) ->
      target =
        destSheet +:+ "!" +:+ ColAddress destCol +:+ Itoa destRow +:+ ":" +:+
        ColAddress (destCol + nbCols) +:+ Itoa (destRow + nbRows))
  /\ (destSheet = "Sheet1"%string -> destRow = 2 -> destCol = 2 ->
      nbRows = 3 -> nbCols = 2 ->
      ColAddress (GoInt.add destCol nbCols) = ColAddress 4
      /\ Itoa (GoInt.add destRow nbRows) = Itoa 5
      /\ target = "Sheet1!B2:D5"%string).
Proof.
  intros Hne data nbRows nbCols st' target.
  destruct first as [|cell first]; [done|]. clear Hne.
  subst st'. unfold data. rewrite DataArrayToGoogleSpreadSheet_nonempty.
  fold data. fold nbRows. fold nbCols.
  change (myRange destSheet destRow destCol nbRows nbCols) with target.
  split; [|split; [|split]].
  - intros srv id rng body opt res.
    run_operation; split_branches; intros Hin; decompose [or] Hin; by simplify_eq.
  - intros c Hc Hn.
    run_operation; split_branches; try congruence; eexists; simplify_eq; reflexivity.
  - intros Hcol Hrow. unfold target, GoInt.add. by rewrite !wrap_small.
  - intros Hsheet Hrow Hcol HnbRows HnbCols. unfold target.
    rewrite Hsheet, Hrow, Hcol, HnbRows, HnbCols. by vm_compute.
Qed.

Lemma write_target_range_witness :
  exists res,
    new_events cached_state
      (DataArrayToGoogleSpreadSheet (sample_world 200 []) "Sheet1" 2 2
         [[VInt 1; VInt 2]; [VInt 3; VInt 4]; [VInt 5; VInt 6]] cached_state).2
    = [EvSheetsNew sample_client None;
       EvUpdateDo (sheets_Service sample_client) "sheet-id" "Sheet1!B2:D5"
         (mkValueRange "ROWS" [[VInt 1; VInt 2]; [VInt 3; VInt 4]; [VInt 5; VInt 6]])
         "USER_ENTERED" res].
Proof.
  destruct (write_target_range (sample_world 200 []) "Sheet1" 2 2
              [VInt 1; VInt 2] [[VInt 3; VInt 4]; [VInt 5; VInt 6]] cached_state)
    as (_ & Hissued & _ & _); [discriminate|].
  destruct (Hissued sample_client eq_refl eq_refl) as [res Hev].
  exists res. exact Hev.
Defined.

(** C4: for a non-empty sequence of rows whose first row has a key, the
    shaping loops of [DataMapToGoogleSpreadsheet] end with a first line that
    is exactly the keys of the first row in increasing byte order, followed
    by one line per row holding, in that column order, the text of the row's
    value under each key (nothing for nil, the string itself, the decimal
    digits of an integer, true or false for a boolean); this is the array
    handed to [DataArrayToGoogleSpreadSheet]; and the row {"b": 1, "a": 2}
    is shaped into the header ["a", "b"] and the line ["2", "1"]. *)
Theorem shaping_header_and_rows (w : World) (sheet : string) (row col : Z)
    (first : gmap string Value) (rest : list (gmap string Value)) (st : State) :
  size first <> 0%nat ->
  Z.of_nat (size first) < GoInt.int_max ->
  GoInt.len (first :: rest) < GoInt.int_max ->
  let data := first :: rest in
  let keys := sort_Strings (map_to_list first).*1 in
  let valueData :=
    (VString <$> keys)
      :: ((fun rowvalue => (fun k => VString (coerce (map_index rowvalue k))) <$> keys)
            <$> data) in
  (Sorted string_le keys /\ NoDup keys /\ forall k, k ∈ keys <-> is_Some (first !! k))
  /\ shape (map_range w) data first (GoInt.len data) (Z.of_nat (size first))
     = Returns valueData
  /\ DataMapToGoogleSpreadsheet w sheet row col data st
     = DataArrayToGoogleSpreadSheet w sheet row col valueData st
  /\ (coerce VNil = EmptyString
      /\ (forall s, coerce (VString s) = s)
      /\ (forall z, coerce (VInt z) = Itoa z)
      /\ (forall b, coerce (VBool b) = FormatBool b))
  /\ shape (map_range w) [sample_row] sample_row 1 2
     = Returns [[VString "a"; VString "b"]; [VString "2"; VString "1"]].
Proof.
  intros Hsize Hcols Hrows data keys valueData.
  assert (Hshape : shape (map_range w) data first (GoInt.len data) (Z.of_nat (size first))
                   = Returns valueData).
  { unfold data. rewrite shape_returns by done. f_equal.
    unfold shapeMapRows, valueData. fold keys. f_equal.
    apply list_fmap_ext. intros _ rowvalue _.
    apply list_fmap_ext. intros _ k _. apply scan_cell_coerce. }
  split; [|split; [|split; [|split]]].
  - split; [apply sort_Strings_sorted|]. split.
    + unfold keys. rewrite sort_Strings_perm. apply NoDup_fst_map_to_list.
    + apply sorted_keys_elem.
  - exact Hshape.
  - unfold DataMapToGoogleSpreadsheet. fold data.
    unfold data at 1. rewrite len_cons_nonzero.
    unfold data at 1. rewrite slice_get_head, bind_lift_Returns.
    rewrite size_nonzero by done. by rewrite Hshape.
  - by split; [|split; [|split]]; intros.
  - change 1 with (GoInt.len [sample_row]).
    change 2 with (Z.of_nat (size sample_row)).
    by rewrite shape_returns.
Qed.

Lemma shaping_header_and_rows_witness :
  shape reverse_range [sample_row] sample_row 1 2
  = Returns [[VString "a"; VString "b"]; [VString "2"; VString "1"]].
Proof.
  refine (proj1 (proj2 (shaping_header_and_rows (sample_world 200 []) "Sheet1" 2 2
                          sample_row [] sample_state _ _ _))).
  - by vm_compute.
  - by vm_compute.
  - by vm_compute.
Defined.

(** C5: the shaping loops never fail, whatever the rows hold; and in any
    row, a key of the first row that is absent, or bound to nil, leaves the
    empty string in that row's line at that key's column. *)
Theorem shaping_missing_key_is_empty_cell (mr : MapRange)
    (first : gmap string Value) (rest : list (gmap string Value)) :
  Z.of_nat (size first) < GoInt.int_max ->
  GoInt.len (first :: rest) < GoInt.int_max ->
  let data := first :: rest in
  let keys := sort_Strings (map_to_list first).*1 in
  exists valueData : list (list Value),
    shape mr data first (GoInt.len data) (Z.of_nat (size first)) = Returns valueData
    /\ length valueData = S (length data)
    /\ forall (i j : nat) (rowvalue : gmap string Value) (k : string),
         data !! i = Some rowvalue ->
         keys !! j = Some k ->
         rowvalue !! k = None \/ rowvalue !! k = Some VNil ->
         exists line, valueData !! S i = Some line /\ line !! j = Some (VString EmptyString).
Proof.
  intros Hcols Hrows data keys.
  exists (shapeMapRows data). split; [by apply shape_returns|].
  unfold shapeMapRows, data. fold data. fold keys.
  change (sorted_keys first) with keys.
  split; [simpl; by rewrite length_fmap|].
  intros i j rowvalue k Hi Hj Hk.
  exists (scan_cell rowvalue <$> keys). split.
  - change (((λ rowvalue0, scan_cell rowvalue0 <$> keys) <$> data) !! i
            = Some (scan_cell rowvalue <$> keys)).
    by rewrite list_lookup_fmap, Hi.
  - rewrite list_lookup_fmap, Hj. simpl. f_equal.
    unfold scan_cell, map_index. by destruct Hk as [-> | ->].
Qed.

Lemma shaping_missing_key_is_empty_cell_witness :
  exists (valueData : list (list Value)) (line : list Value),
    shape listing_range [sample_row; {["a"%string := VString "x"]}] sample_row 2 2
    = Returns valueData
    /\ valueData !! 2%nat = Some line
    /\ line !! 1%nat = Some (VString EmptyString).
Proof.
  destruct (shaping_missing_key_is_empty_cell listing_range sample_row
              [{["a"%string := VString "x"]}]) as (valueData & Hshape & _ & Hcell).
  - by vm_compute.
  - by vm_compute.
  - destruct (Hcell 1%nat 1%nat {["a"%string := VString "x"]} "b"%string)
      as (line & Hline & Hempty).
    + reflexivity.
    + by vm_compute.
    + left. by vm_compute.
    + exists valueData, line. split; [exact Hshape|]. split; [exact Hline | exact Hempty].
Defined.

(** C6: given no row at all, or a first row without any column or key,
    [DataArrayToGoogleSpreadSheet] and [DataMapToGoogleSpreadsheet] return a
    nil error and leave the state as it was: nothing is asked of the
    libraries, neither an authentication nor a call to the service. *)
Theorem degenerate_write_is_noop (w : World) (sheet : string) (row col : Z) (st : State) :
  (forall data : list (list Value),
     GoInt.len data = 0 \/ (exists first, head data = Some first /\ GoInt.len first = 0) ->
     DataArrayToGoogleSpreadSheet w sheet row col data st = (Returns None, st)
     /\ new_events st (DataArrayToGoogleSpreadSheet w sheet row col data st).2 = [])
  /\ (forall data : list (gmap string Value),
        GoInt.len data = 0 \/ (exists first, head data = Some first /\ size first = 0%nat) ->
        DataMapToGoogleSpreadsheet w sheet row col data st = (Returns None, st)
        /\ new_events st (DataMapToGoogleSpreadsheet w sheet row col data st).2 = []).
Proof.
  split; intros data Hd.
  - assert (E : DataArrayToGoogleSpreadSheet w sheet row col data st = (Returns None, st)).
    { destruct data as [|first rest].
      - reflexivity.
      - destruct Hd as [Hd|(f & Hf & Hz)]; [rewrite len_cons in Hd; unfold GoInt.len in Hd; lia|].
        simpl in Hf. injection Hf as <-.
        unfold DataArrayToGoogleSpreadSheet. rewrite len_cons_nonzero.
        unfold bind, lift. simpl. by rewrite Hz. }
    rewrite E. split; [done | apply new_events_refl].
  - assert (E : DataMapToGoogleSpreadsheet w sheet row col data st = (Returns None, st)).
    { destruct data as [|first rest].
      - reflexivity.
      - destruct Hd as [Hd|(f & Hf & Hz)]; [rewrite len_cons in Hd; unfold GoInt.len in Hd; lia|].
        simpl in Hf. injection Hf as <-.
        unfold DataMapToGoogleSpreadsheet. rewrite len_cons_nonzero.
        unfold bind, lift. simpl. by rewrite Hz. }
    rewrite E. split; [done | apply new_events_refl].
Qed.

Lemma degenerate_write_is_noop_witness :
  DataArrayToGoogleSpreadSheet (sample_world 200 []) "Sheet1" 1 1 [[]; [VInt 1]] sample_state
    = (Returns None, sample_state)
  /\ DataMapToGoogleSpreadsheet (sample_world 200 []) "Sheet1" 1 1 [] sample_state
    = (Returns None, sample_state).
Proof.
  destruct (degenerate_write_is_noop (sample_world 200 []) "Sheet1" 1 1 sample_state)
    as [Harr Hmap].
  split.
  - apply (Harr [[]; [VInt 1]]). right. exists []. split; reflexivity.
  - apply (Hmap []). left. reflexivity.
Defined.

(** C7: when the read reaches the service and the service answers without
    an error, a response with zero rows makes the operation return the
    error "Empty template" together with a nil slice, and a response with at
    least one row is returned as it is with a nil error; and in no run does
    the operation return a slice without rows, or a slice next to an
    error. *)
Theorem read_result (w : World) (sourceRange : string) (st : State) :
  (forall (srv : Service) (id rng : string) (result : ValueRange),
     In (EvGetDo srv id rng (inr result))
        (new_events st (GoogleSpreadsheetToDataArray w sourceRange st).2) ->
     (GoInt.len (Values result) = 0 ->
      (GoogleSpreadsheetToDataArray w sourceRange st).1
      = Returns (None, Some (errors_New "Empty template")))
     /\ (0 < GoInt.len (Values result) ->
         (GoogleSpreadsheetToDataArray w sourceRange st).1
         = Returns (Some (Values result), None)))
  /\ (forall values err,
        (GoogleSpreadsheetToDataArray w sourceRange st).1 = Returns (Some values, err) ->
        values <> [] /\ err = None).
Proof.
  split.
  - intros srv id rng result.
    unfold GoogleSpreadsheetToDataArray. run_operation.
    all: try (simpl; intuition discriminate).
    all: destruct (Z.eqb_spec (GoInt.len (Values v)) 0) as [Hz|Hnz]; simpl;
      rewrite <- ?app_assoc; simpl; rewrite ?new_events_app; simpl;
      intros Hin; decompose [or] Hin; try discriminate; try done;
      simplify_eq; split; intros; try done; lia.
  - intros values err.
    unfold GoogleSpreadsheetToDataArray. run_operation.
    all: try (simpl; intros; discriminate).
    all: destruct (Z.eqb_spec (GoInt.len (Values v)) 0) as [Hz|Hnz]; simpl;
      intros Hout; simplify_eq.
    all: split; [|done]; intros E; rewrite E in Hnz; by apply Hnz.
Qed.

Lemma read_result_witness :
  (GoogleSpreadsheetToDataArray (sample_world 200 []) "Sheet1!A1:B2" cached_state).1
  = Returns (None, Some (errors_New "Empty template"))
  /\ (GoogleSpreadsheetToDataArray (sample_world 200 [[VString "x"]]) "Sheet1!A1:B2"
        cached_state).1
     = Returns (Some [[VString "x"]], None).
Proof.
  split.
  - refine (proj1 (proj1 (read_result (sample_world 200 []) "Sheet1!A1:B2" cached_state)
                     (sheets_Service sample_client) "sheet-id" "Sheet1!A1:B2"
                     (mkValueRange "ROWS" []) _) _).
    + vm_compute. right. left. reflexivity.
    + reflexivity.
  - refine (proj2 (proj1 (read_result (sample_world 200 [[VString "x"]]) "Sheet1!A1:B2"
                            cached_state)
                     (sheets_Service sample_client) "sheet-id" "Sheet1!A1:B2"
                     (mkValueRange "ROWS" [[VString "x"]]) _) _).
    + vm_compute. right. left. reflexivity.
    + by vm_compute.
Defined.

(** C8: when the update call of [DataArrayToGoogleSpreadSheet] comes back
    without a transport error, a status code below 200 or above 299 makes
    the operation return the error "Wrong http return code <code> ", whose
    message contains the code in decimal, and any other status code makes
    it return nil. *)
Theorem write_status_check (w : World) (destSheet : string) (destRow destCol : Z)
    (data : list (list Value)) (st : State)
    (srv : Service) (id rng opt : string) (body : ValueRange)
    (updateResponse : UpdateValuesResponse) :
  In (EvUpdateDo srv id rng body opt (inr updateResponse))
     (new_events st (DataArrayToGoogleSpreadSheet w destSheet destRow destCol data st).2) ->
  let code := HTTPStatusCode updateResponse in
  (code < 200 \/ 299 < code ->
     exists e : error,
       (DataArrayToGoogleSpreadSheet w destSheet destRow destCol data st).1 = Returns (Some e)
       /\ Error e = "Wrong http return code " +:+ Itoa code +:+ " "
       /\ contains (Itoa code) (Error e))
  /\ (200 <= code <= 299 ->
      (DataArrayToGoogleSpreadSheet w destSheet destRow destCol data st).1 = Returns None).
Proof.
  destruct data as [|first rest]; [simpl; rewrite new_events_refl; done|].
  destruct first as [|cell first].
  { unfold DataArrayToGoogleSpreadSheet. rewrite len_cons_nonzero.
    unfold bind, lift. simpl. rewrite new_events_refl. done. }
  rewrite DataArrayToGoogleSpreadSheet_nonempty.
  run_operation.
  all: try (simpl; intuition discriminate).
  all: destruct (Z.ltb_spec (HTTPStatusCode u) 200);
    destruct (Z.ltb_spec 299 (HTTPStatusCode u)); simpl;
    rewrite <- ?app_assoc; simpl; rewrite ?new_events_app.
  all: intros Hin; simpl in Hin; decompose [or] Hin; try discriminate; try done;
    simplify_eq.
  all: split; [intros Hout | intros Hin'; try done; lia].
  all: try lia.
  all: eexists; split; [reflexivity|split; [reflexivity|]].
  all: by exists "Wrong http return code "%string, " "%string.
Qed.

Lemma write_status_check_witness :
  (DataArrayToGoogleSpreadSheet (sample_world 404 []) "Sheet1" 2 2 [[VInt 1]] cached_state).1
  = Returns (Some (errors_New "Wrong http return code 404 "))
  /\ (DataArrayToGoogleSpreadSheet (sample_world 204 []) "Sheet1" 2 2 [[VInt 1]] cached_state).1
     = Returns None.
Proof.
  split.
  - destruct (write_status_check (sample_world 404 []) "Sheet1" 2 2 [[VInt 1]] cached_state
                (sheets_Service sample_client) "sheet-id" "Sheet1!B2:C3" "USER_ENTERED"
                (mkValueRange "ROWS" [[VInt 1]]) (mkUpdateValuesResponse 404))
      as [Hbad _].
    + vm_compute. right. left. reflexivity.
    + destruct Hbad as (e & Hout & Hmsg & _); [right; simpl; lia|].
      rewrite Hout. destruct e as [msg]. simpl in Hmsg. rewrite Hmsg. reflexivity.
  - destruct (write_status_check (sample_world 204 []) "Sheet1" 2 2 [[VInt 1]] cached_state
                (sheets_Service sample_client) "sheet-id" "Sheet1!B2:C3" "USER_ENTERED"
                (mkValueRange "ROWS" [[VInt 1]]) (mkUpdateValuesResponse 204))
      as [_ Hgood].
    + vm_compute. right. left. reflexivity.
    + apply Hgood. simpl. lia.
Defined.

(** C9: whatever the operation (write from rows, write from an array, read,
    either clear) and whatever the configuration, the credentials and the
    spreadsheet identifier are left as they were; with a client already
    cached the configuration is left untouched and no credentials are
    parsed; and the one change an operation can make is to fill a missing
    client with an actual one. *)
Theorem config_only_gains_client (w : World) (op : Operation) (st : State) :
  let st' := state_after w op st in
  GoogleCredentials (googleConf st') = GoogleCredentials (googleConf st)
  /\ SpreadsheetID (googleConf st') = SpreadsheetID (googleConf st)
  /\ (forall c, Client (googleConf st) = Some c ->
        googleConf st' = googleConf st
        /\ forallb (fun ev => negb (is_auth ev)) (new_events st st') = true)
  /\ (googleConf st' = googleConf st
      \/ (Client (googleConf st) = None
          /\ exists c, googleConf st' = with_Client (Some c) (googleConf st))).
Proof.
  intros st'. destruct (evolves_after w op st) as (evs & Ht & Hc). fold st' in Ht, Hc.
  assert (Hev : new_events st st' = evs).
  { unfold new_events. rewrite Ht. apply drop_app_length. }
  rewrite Hev.
  destruct (Client (googleConf st)) as [c0|] eqn:E.
  - destruct Hc as [Hc Hn]. rewrite Hc. repeat split; auto.
  - repeat split; try discriminate.
    + destruct Hc as [->|[c ->]]; done.
    + destruct Hc as [->|[c ->]]; done.
    + destruct Hc as [Hc|[c Hc]]; [by left | right; eauto].
Qed.

Lemma config_only_gains_client_witness :
  googleConf (state_after (sample_world 200 []) (OpClearSheet "Sheet1!A1:B2") cached_state)
  = googleConf cached_state
  /\ Client (googleConf (state_after (sample_world 200 [])
                           (OpGoogleSpreadsheetToDataArray "Sheet1!A1:B2") sample_state))
     = Some (oauth2_NewClient (JWTConfig_at 1%N)).
Proof.
  split.
  - destruct (config_only_gains_client (sample_world 200 []) (OpClearSheet "Sheet1!A1:B2")
                cached_state) as (_ & _ & Hcached & _).
    exact (proj1 (Hcached sample_client eq_refl)).
  - reflexivity.
Defined.

(** C10: for a multiple of 26 in [27, 674] the result has exactly two
    characters and the second one is '@', the character just before 'A';
    the result is therefore non-empty but not made of letters only. *)
Theorem ColAddress_multiple_of_26 (col : Z) :
  27 <= col <= 674 -> col mod 26 = 0 ->
  ColAddress col = String (letter_at (col / 26 - 1)) (String "@"%char EmptyString)
  /\ String.length (ColAddress col) = 2%nat
  /\ ColAddress col <> EmptyString
  /\ all_letters (ColAddress col) = false.
Proof.
  intros Hc Hm.
  assert (E : ColAddress col = String (letter_at (col / 26 - 1)) (String "@"%char EmptyString)).
  { rewrite ColAddress_two_letters by lia. rewrite Hm. reflexivity. }
  rewrite E. repeat split; try discriminate.
  change (is_upper_letter (letter_at (col / 26 - 1)) && false = false).
  apply andb_false_r.
Qed.

Lemma ColAddress_multiple_of_26_witness :
  ColAddress 52 = "B@"%string /\ all_letters (ColAddress 52) = false.
Proof.
  destruct (ColAddress_multiple_of_26 52) as (E & _ & _ & L);
    [lia | reflexivity | split; [exact E | exact L]].
Defined.

(* ===================================================================== *)
(** ** Further properties of the code *)
(* ===================================================================== *)

Section ColAddress_more.

Lemma letter_at_inj (j k : Z) :
  -65 <= j < 191 -> -65 <= k < 191 -> letter_at j = letter_at k -> j = k.
Proof.
  unfold letter_at, byte_of_Z. intros Hj Hk E.
  apply (f_equal N_of_ascii) in E.
  rewrite !N_ascii_embedding in E by lia. lia.
Qed.

Lemma ColAddress_one_letter col :
  1 <= col <= 26 -> ColAddress col = String (letter_at (col - 1)) EmptyString.
Proof.
  intros Hc. unfold ColAddress.
  replace (675 <=? col) with false by lia.
  replace (col <? 1) with false by lia.
  replace (col <=? 26) with true by lia. simpl.
  replace col with ((col - 1) + 1) at 1 by lia.
  apply letter_conversion. lia.
Qed.

Lemma ColAddress_empty col : col < 1 \/ 675 <= col -> ColAddress col = EmptyString.
Proof.
  intros Hc. unfold ColAddress.
  destruct (Z.leb_spec 675 col), (Z.ltb_spec col 1); simpl; try reflexivity; lia.
Qed.

Lemma A1_column_one_letter n :
  1 <= n <= 26 -> A1_column n = String (letter_at (n - 1)) EmptyString.
Proof.
  intros Hn. unfold A1_column.
  change 14%nat with (S (S 12)). cbn [A1_column_fuel].
  replace (n <=? 0) with false by lia.
  rewrite (Z.div_small (n - 1) 26) by lia.
  rewrite (Z.mod_small (n - 1) 26) by lia.
  reflexivity.
Qed.

Lemma A1_column_two_letters n :
  27 <= n <= 702 ->
  A1_column n =
    String (letter_at ((n - 1) / 26 - 1))
      (String (letter_at ((n - 1) mod 26)) EmptyString).
Proof.
  intros Hn. unfold A1_column.
  change 14%nat with (S (S (S 11))). cbn [A1_column_fuel].
  assert (1 <= (n - 1) / 26 < 27).
  { split; [apply Z.div_le_lower_bound; lia | apply Z.div_lt_upper_bound; lia]. }
  replace (n <=? 0) with false by lia.
  replace ((n - 1) / 26 <=? 0) with false by lia.
  rewrite (Z.div_small ((n - 1) / 26 - 1) 26) by lia.
  rewrite (Z.mod_small ((n - 1) / 26 - 1) 26) by lia.
  reflexivity.
Qed.

End ColAddress_more.

(** X1: inside the domain [1, 674] two different columns never get the
    same address. *)
Theorem ColAddress_injective (c1 c2 : Z) :
  1 <= c1 <= 674 -> 1 <= c2 <= 674 -> ColAddress c1 = ColAddress c2 -> c1 = c2.
Proof.
  intros H1 H2 E.
  assert (B : forall c, 27 <= c <= 674 -> 1 <= c / 26 < 26 /\ 0 <= c mod 26 < 26).
  { intros c Hc. split; [|apply Z.mod_pos_bound; lia].
    split; [apply Z.div_le_lower_bound; lia | apply Z.div_lt_upper_bound; lia]. }
  destruct (Z.leb_spec c1 26) as [L1|G1], (Z.leb_spec c2 26) as [L2|G2].
  - rewrite !ColAddress_one_letter in E by lia. injection E as E.
    apply letter_at_inj in E; lia.
  - rewrite (ColAddress_one_letter c1), (ColAddress_two_letters c2) in E by lia.
    discriminate.
  - rewrite (ColAddress_two_letters c1), (ColAddress_one_letter c2) in E by lia.
    discriminate.
  - rewrite !ColAddress_two_letters in E by lia. injection E as Eq Er.
    destruct (B c1) as [? ?]; [lia|]. destruct (B c2) as [? ?]; [lia|].
    apply letter_at_inj in Eq; [|lia|lia]. apply letter_at_inj in Er; [|lia|lia].
    rewrite (Z.div_mod c1 26), (Z.div_mod c2 26) by lia. lia.
Qed.

Lemma ColAddress_injective_witness : 3 + 24 = 27.
Proof. apply (ColAddress_injective (3 + 24) 27); [lia | lia | reflexivity]. Defined.

(** X2: the address has no character outside the domain, one character
    for a column up to 26 and two characters above; so the address is empty
    exactly when the column is outside [1, 674]. *)
Theorem ColAddress_length (col : Z) :
  String.length (ColAddress col)
  = (if (col <? 1) || (674 <? col) then 0%nat else if col <=? 26 then 1%nat else 2%nat)
  /\ (ColAddress col = EmptyString <-> col < 1 \/ 674 < col).
Proof.
  assert (L : String.length (ColAddress col)
              = (if (col <? 1) || (674 <? col) then 0%nat else if col <=? 26 then 1%nat else 2%nat)).
  { destruct (Z.ltb_spec col 1); [by rewrite ColAddress_empty by lia|].
    destruct (Z.ltb_spec 674 col); [by rewrite ColAddress_empty by lia|].
    destruct (Z.leb_spec col 26); simpl.
    - by rewrite ColAddress_one_letter by lia.
    - by rewrite ColAddress_two_letters by lia. }
  split; [exact L|]. split.
  - intros E. rewrite E in L. simpl in L.
    destruct (Z.ltb_spec col 1); [lia|]. destruct (Z.ltb_spec 674 col); [lia|].
    simpl in L. destruct (col <=? 26); discriminate.
  - intros Hc. apply ColAddress_empty. lia.
Qed.

(** X3: inside the domain the address is the spreadsheet's own name of the
    column (A, ..., Z, AA, AB, ...) exactly for the columns up to 26 and for
    those that are not a multiple of 26. *)
Theorem ColAddress_is_column_name (col : Z) :
  1 <= col <= 674 ->
  (ColAddress col = A1_column col <-> col <= 26 \/ col mod 26 <> 0).
Proof.
  intros Hc. destruct (Z.leb_spec col 26) as [L|G].
  - rewrite ColAddress_one_letter, A1_column_one_letter by lia. split; auto.
  - rewrite ColAddress_two_letters, A1_column_two_letters by lia.
    assert (Hm : 0 <= col mod 26 < 26) by (apply Z.mod_pos_bound; lia).
    assert (Hd : col = 26 * (col / 26) + col mod 26) by (apply Z.div_mod; lia).
    destruct (Z.eq_dec (col mod 26) 0) as [Z0|NZ].
    + split; [|intros [?|?]; [lia|done]].
      intros E. injection E as _ Er. exfalso.
      assert (Hr : (col - 1) mod 26 = 25).
      { symmetry. apply (Z.mod_unique_pos _ _ (col / 26 - 1)); lia. }
      rewrite Z0, Hr in Er. apply letter_at_inj in Er; lia.
    + split; [auto|]. intros _.
      assert (Hq : (col - 1) / 26 = col / 26).
      { symmetry. apply (Z.div_unique_pos _ _ _ (col mod 26 - 1)); lia. }
      assert (Hr : (col - 1) mod 26 = col mod 26 - 1).
      { symmetry. apply (Z.mod_unique_pos _ _ (col / 26)); lia. }
      by rewrite Hq, Hr.
Qed.

Lemma ColAddress_is_column_name_witness :
  ColAddress 53 = A1_column 53 /\ ColAddress 53 = "BA"%string
  /\ ColAddress 52 <> A1_column 52 /\ A1_column 52 = "AZ"%string.
Proof.
  destruct (ColAddress_is_column_name 53) as [_ Hyes]; [lia|].
  destruct (ColAddress_is_column_name 52) as [Hno _]; [lia|].
  split; [apply Hyes; right; by vm_compute|]. split; [reflexivity|].
  split; [|reflexivity]. intros E. destruct (Hno E) as [?|Hm]; [lia|].
  apply Hm. reflexivity.
Defined.

Section operation_more.

Lemma with_Client_same conf : with_Client (Client conf) conf = conf.
Proof. by destruct conf. Qed.

(** A write of rows either returns at once, or panics while shaping, or is
    the write of some array. *)
Lemma DataMapToGoogleSpreadsheet_cases w sheet row col data st :
  DataMapToGoogleSpreadsheet w sheet row col data st = (Returns None, st)
  \/ (exists msg, DataMapToGoogleSpreadsheet w sheet row col data st = (Panics msg, st))
  \/ (exists valueData,
        DataMapToGoogleSpreadsheet w sheet row col data st
        = DataArrayToGoogleSpreadSheet w sheet row col valueData st).
Proof.
  unfold DataMapToGoogleSpreadsheet.
  destruct data as [|first rest]; [by left|].
  rewrite len_cons_nonzero, slice_get_head, bind_lift_Returns.
  destruct (Z.of_nat (size first) =? 0); [by left|].
  destruct (shape (map_range w) (first :: rest) first (GoInt.len (first :: rest))
              (Z.of_nat (size first))) as [valueData|msg].
  - right. right. by exists valueData.
  - right. left. by exists msg.
Qed.

(** A write of an array either returns at once or has a first cell. *)
Lemma DataArrayToGoogleSpreadSheet_cases w sheet row col data st :
  DataArrayToGoogleSpreadSheet w sheet row col data st = (Returns None, st)
  \/ exists cell first rest, data = (cell :: first) :: rest.
Proof.
  destruct data as [|[|cell first] rest]; [by left| |right; eauto].
  left. unfold DataArrayToGoogleSpreadSheet.
  by rewrite len_cons_nonzero, slice_get_head, bind_lift_Returns.
Qed.

(** With rows to send, the write of rows is the write of the shaped array,
    which has a first cell. *)
Lemma DataMapToGoogleSpreadsheet_shaped w sheet row col data st :
  has_data (OpDataMapToGoogleSpreadsheet sheet row col data) ->
  DataMapToGoogleSpreadsheet w sheet row col data st
  = DataArrayToGoogleSpreadSheet w sheet row col (shapeMapRows data) st
  /\ exists cell line rest, shapeMapRows data = (cell :: line) :: rest.
Proof.
  intros (first & rest & -> & Hsize & Hcols & Hrows). split.
  - unfold DataMapToGoogleSpreadsheet.
    rewrite len_cons_nonzero, slice_get_head, bind_lift_Returns.
    rewrite size_nonzero by done. by rewrite shape_returns.
  - unfold shapeMapRows.
    destruct (sorted_keys first) as [|k keys] eqn:E.
    + apply (f_equal length) in E. rewrite sorted_keys_length in E. done.
    + simpl. eauto.
Qed.

(** The updates that the write of an array issues. *)
Lemma DataArrayToGoogleSpreadSheet_updates w sheet row col cell first rest st
    srv id rng body opt res :
  In (EvUpdateDo srv id rng body opt res)
     (new_events st (DataArrayToGoogleSpreadSheet w sheet row col
                       ((cell :: first) :: rest) st).2) ->
  id = SpreadsheetID (googleConf st)
  /\ rng = myRange sheet row col (GoInt.len ((cell :: first) :: rest))
             (GoInt.len (cell :: first))
  /\ body = mkValueRange "ROWS" ((cell :: first) :: rest)
  /\ opt = "USER_ENTERED"%string.
Proof.
  rewrite DataArrayToGoogleSpreadSheet_nonempty.
  run_operation; split_branches; intros Hin; decompose [or] Hin; by simplify_eq.
Qed.

End operation_more.

(** Rewrite with what is known of the client and of the answers. *)
Ltac run_with Hc :=
  unfold check_google_auth, googleAuth, New, bind, call, get_conf, set_Client,
    ret, panic, lift, Printf;
  cbn [fst snd googleConf trace Client with_Client];
  repeat (rewrite Hc; cbn [fst snd googleConf trace Client with_Client
                             GoogleCredentials SpreadsheetID]).

(** X4: when no client is cached and the credentials do not parse, every
    operation that has something to do returns the error of the parser,
    asks nothing else of the libraries or of the service, and leaves the
    configuration without a client; a read returns a nil slice besides. *)
Theorem auth_failure_is_returned (w : World) (op : Operation) (st : State) (e : error) :
  Client (googleConf st) = None ->
  JWTConfigFromJSON w (trace st) (GoogleCredentials (googleConf st)) SpreadsheetsScope
    = inl e ->
  has_data op ->
  result_error w op st = Returns (Some e)
  /\ state_after w op st
     = mkState (googleConf st)
         (trace st ++ [EvJWTConfigFromJSON (GoogleCredentials (googleConf st))
                         SpreadsheetsScope (inl e)])
  /\ (forall r, op = OpGoogleSpreadsheetToDataArray r ->
        (GoogleSpreadsheetToDataArray w r st).1 = Returns (None, Some e)).
Proof.
  intros Hc HJ Hdata.
  assert (Hconf : with_Client None (googleConf st) = googleConf st).
  { rewrite <- Hc. apply with_Client_same. }
  assert (Harr : forall sheet row col cell first rest,
    DataArrayToGoogleSpreadSheet w sheet row col ((cell :: first) :: rest) st
    = (Returns (Some e),
       mkState (googleConf st)
         (trace st ++ [EvJWTConfigFromJSON (GoogleCredentials (googleConf st))
                         SpreadsheetsScope (inl e)]))).
  { intros. rewrite DataArrayToGoogleSpreadSheet_nonempty.
    run_with Hc. rewrite HJ. simpl. by rewrite Hconf. }
  destruct op as [r|sheet row col data|sheet row col data|r|r]; simpl.
  - unfold ClearRange. run_with Hc. rewrite HJ. simpl. rewrite Hconf.
    repeat split; done.
  - destruct (DataMapToGoogleSpreadsheet_shaped w sheet row col data st Hdata)
      as (-> & cell & line & rest & ->).
    rewrite Harr. repeat split; done.
  - destruct Hdata as (cell & first & rest & ->). rewrite Harr. repeat split; done.
  - unfold GoogleSpreadsheetToDataArray. run_with Hc. rewrite HJ. simpl. rewrite Hconf.
    repeat split; done.
  - unfold ClearSheet. run_with Hc. rewrite HJ. simpl. rewrite Hconf.
    repeat split; done.
Qed.

Lemma auth_failure_is_returned_witness :
  result_error refusing_world
    (OpDataMapToGoogleSpreadsheet "Sheet1" 1 1 [sample_row]) sample_state
  = Returns (Some (errors_New "invalid character"))
  /\ Client (googleConf (state_after refusing_world
                           (OpDataMapToGoogleSpreadsheet "Sheet1" 1 1 [sample_row])
                           sample_state)) = None.
Proof.
  destruct (auth_failure_is_returned refusing_world
              (OpDataMapToGoogleSpreadsheet "Sheet1" 1 1 [sample_row]) sample_state
              (errors_New "invalid character")) as (Hres & Hst & _).
  - reflexivity.
  - reflexivity.
  - exists sample_row, []. repeat split; by vm_compute.
  - split; [exact Hres|]. rewrite Hst. reflexivity.
Defined.

(** X5: when a client is cached and the service cannot be built around it,
    [ClearRange] returns the error of [sheets.New], while the two writes,
    the read and [ClearSheet], which drop that error, panic on the nil
    service; in both cases the service is never called. *)
Theorem service_construction_failure (w : World) (op : Operation) (st : State)
    (c : HttpClient) (e : error) :
  Client (googleConf st) = Some c ->
  sheets_New w (trace st) c = Some e ->
  has_data op ->
  result_error w op st
  = match op with
    | OpClearRange _ => Returns (Some e)
    | _ => Panics nil_dereference
    end
  /\ state_after w op st
     = mkState (googleConf st) (trace st ++ [EvSheetsNew c (Some e)]).
Proof.
  intros Hc HN Hdata.
  assert (Harr : forall sheet row col cell first rest,
    DataArrayToGoogleSpreadSheet w sheet row col ((cell :: first) :: rest) st
    = (Panics nil_dereference,
       mkState (googleConf st) (trace st ++ [EvSheetsNew c (Some e)]))).
  { intros. rewrite DataArrayToGoogleSpreadSheet_nonempty.
    run_with Hc. by rewrite HN. }
  destruct op as [r|sheet row col data|sheet row col data|r|r]; simpl.
  - unfold ClearRange. run_with Hc. by rewrite HN.
  - destruct (DataMapToGoogleSpreadsheet_shaped w sheet row col data st Hdata)
      as (-> & cell & line & rest & ->).
    by rewrite Harr.
  - destruct Hdata as (cell & first & rest & ->). by rewrite Harr.
  - unfold GoogleSpreadsheetToDataArray. run_with Hc. by rewrite HN.
  - unfold ClearSheet. run_with Hc. by rewrite HN.
Qed.

Lemma service_construction_failure_witness :
  result_error failing_world (OpClearRange "Sheet1!A1:B2") cached_state
  = Returns (Some (errors_New "no service"))
  /\ result_error failing_world (OpClearSheet "Sheet1!A1:B2") cached_state
     = Panics nil_dereference.
Proof.
  split.
  - refine (proj1 (service_construction_failure failing_world (OpClearRange "Sheet1!A1:B2")
                     cached_state sample_client (errors_New "no service") _ _ _));
      [reflexivity | reflexivity | exact I].
  - refine (proj1 (service_construction_failure failing_world (OpClearSheet "Sheet1!A1:B2")
                     cached_state sample_client (errors_New "no service") _ _ _));
      [reflexivity | reflexivity | exact I].
Defined.

Section mirror_facts.

Ltac events_done :=
  repeat split; intros;
  repeat match goal with
         | H : In _ _ |- _ => simpl in H; decompose [or] H; clear H
         end;
  simplify_eq; done.

Lemma mirrors_nil res : mirrors [] res.
Proof. repeat split; intros; by exfalso. Qed.

Lemma mirrors_DataArrayToGoogleSpreadSheet w sheet row col data st :
  mirrors (new_events st (DataArrayToGoogleSpreadSheet w sheet row col data st).2)
          (DataArrayToGoogleSpreadSheet w sheet row col data st).1.
Proof.
  destruct (DataArrayToGoogleSpreadSheet_cases w sheet row col data st)
    as [->|(cell & first & rest & ->)].
  { simpl. rewrite new_events_refl. apply mirrors_nil. }
  rewrite DataArrayToGoogleSpreadSheet_nonempty.
  run_operation; split_branches; events_done.
Qed.

Lemma mirrors_DataMapToGoogleSpreadsheet w sheet row col data st :
  mirrors (new_events st (DataMapToGoogleSpreadsheet w sheet row col data st).2)
          (DataMapToGoogleSpreadsheet w sheet row col data st).1.
Proof.
  destruct (DataMapToGoogleSpreadsheet_cases w sheet row col data st)
    as [->|[[msg ->]|[valueData ->]]].
  - simpl. rewrite new_events_refl. apply mirrors_nil.
  - simpl. rewrite new_events_refl. apply mirrors_nil.
  - apply mirrors_DataArrayToGoogleSpreadSheet.
Qed.

Lemma mirrors_ClearRange w r st :
  mirrors (new_events st (ClearRange w r st).2) (ClearRange w r st).1.
Proof. unfold ClearRange. run_operation; split_branches; events_done. Qed.

Lemma mirrors_ClearSheet w r st :
  mirrors (new_events st (ClearSheet w r st).2) (ClearSheet w r st).1.
Proof. unfold ClearSheet. run_operation; split_branches; events_done. Qed.

Lemma mirrors_GoogleSpreadsheetToDataArray w r st :
  mirrors (new_events st (GoogleSpreadsheetToDataArray w r st).2)
          (result_error w (OpGoogleSpreadsheetToDataArray r) st).
Proof.
  unfold result_error, GoogleSpreadsheetToDataArray.
  run_operation; split_branches; events_done.
Qed.

End mirror_facts.

(** X6: an operation hands the answer of the service on as it is: the
    error of an update or of a read that the service refused is the error
    returned, and a clear returns exactly what the clear call answered, nil
    included. *)
Theorem service_answer_is_returned (w : World) (op : Operation) (st : State) :
  mirrors (new_events st (state_after w op st)) (result_error w op st).
Proof.
  destruct op as [r|sheet row col data|sheet row col data|r|r].
  - apply mirrors_ClearRange.
  - apply mirrors_DataMapToGoogleSpreadsheet.
  - apply mirrors_DataArrayToGoogleSpreadSheet.
  - apply mirrors_GoogleSpreadsheetToDataArray.
  - apply mirrors_ClearSheet.
Qed.

Lemma service_answer_is_returned_witness :
  result_error quota_world (OpDataArrayToGoogleSpreadSheet "Sheet1" 1 1 [[VInt 1]])
    cached_state
  = Returns (Some (errors_New "quota")).
Proof.
  refine (proj1 (service_answer_is_returned quota_world
                   (OpDataArrayToGoogleSpreadSheet "Sheet1" 1 1 [[VInt 1]]) cached_state)
            (sheets_Service sample_client) "sheet-id" "Sheet1!A1:B2"
            (mkValueRange "ROWS" [[VInt 1]]) "USER_ENTERED" (errors_New "quota") _).
  vm_compute. right. left. reflexivity.
Defined.

Section frugal_facts.

Ltac frugal_done :=
  unfold frugal, service_calls, count_events; simpl;
  repeat split; try lia;
  first [ by left
        | right; eexists; split; [reflexivity|]; intros; by simplify_eq ].

Lemma frugal_nil conf range : frugal conf range [].
Proof. frugal_done. Qed.

Lemma frugal_DataArrayToGoogleSpreadSheet w sheet row col data st :
  frugal (googleConf st) None
    (new_events st (DataArrayToGoogleSpreadSheet w sheet row col data st).2).
Proof.
  destruct (DataArrayToGoogleSpreadSheet_cases w sheet row col data st)
    as [->|(cell & first & rest & ->)].
  { simpl. rewrite new_events_refl. apply frugal_nil. }
  rewrite DataArrayToGoogleSpreadSheet_nonempty.
  run_operation; split_branches; frugal_done.
Qed.

Lemma frugal_DataMapToGoogleSpreadsheet w sheet row col data st :
  frugal (googleConf st) None
    (new_events st (DataMapToGoogleSpreadsheet w sheet row col data st).2).
Proof.
  destruct (DataMapToGoogleSpreadsheet_cases w sheet row col data st)
    as [->|[[msg ->]|[valueData ->]]].
  - simpl. rewrite new_events_refl. apply frugal_nil.
  - simpl. rewrite new_events_refl. apply frugal_nil.
  - apply frugal_DataArrayToGoogleSpreadSheet.
Qed.

Lemma frugal_ClearRange w r st :
  frugal (googleConf st) (Some r) (new_events st (ClearRange w r st).2).
Proof. unfold ClearRange. run_operation; split_branches; frugal_done. Qed.

Lemma frugal_ClearSheet w r st :
  frugal (googleConf st) (Some r) (new_events st (ClearSheet w r st).2).
Proof. unfold ClearSheet. run_operation; split_branches; frugal_done. Qed.

Lemma frugal_GoogleSpreadsheetToDataArray w r st :
  frugal (googleConf st) (Some r)
    (new_events st (GoogleSpreadsheetToDataArray w r st).2).
Proof. unfold GoogleSpreadsheetToDataArray. run_operation; split_branches; frugal_done. Qed.

End frugal_facts.

(** X7: no operation retries: in one run the service is called at most
    once, the credentials are parsed at most once and the service is built
    at most once; the call names the spreadsheet of the configuration, and a
    read or a clear passes on the very range it was given. *)
Theorem operations_never_retry (w : World) (op : Operation) (st : State) :
  frugal (googleConf st) (caller_range op) (new_events st (state_after w op st)).
Proof.
  destruct op as [r|sheet row col data|sheet row col data|r|r]; simpl.
  - apply frugal_ClearRange.
  - apply frugal_DataMapToGoogleSpreadsheet.
  - apply frugal_DataArrayToGoogleSpreadSheet.
  - apply frugal_GoogleSpreadsheetToDataArray.
  - apply frugal_ClearSheet.
Qed.

(** X8: as long as the service can be built, [ClearSheet] and [ClearRange]
    are the same operation: same result, same configuration afterwards and
    the same calls in the same order; [ClearSheet] only prints the error of
    a clear that failed. *)
Theorem ClearSheet_is_ClearRange (w : World) (r : string) (st : State) :
  (forall c e, ~ In (EvSheetsNew c (Some e)) (new_events st (ClearRange w r st).2)) ->
  (ClearSheet w r st).1 = (ClearRange w r st).1
  /\ googleConf (ClearSheet w r st).2 = googleConf (ClearRange w r st).2
  /\ List.filter (fun ev => negb (is_Printf ev)) (new_events st (ClearSheet w r st).2)
     = new_events st (ClearRange w r st).2.
Proof.
  unfold ClearSheet, ClearRange.
  run_operation; split_branches; intros Hnew; try done.
  all: exfalso; eapply Hnew; simpl; eauto.
Qed.

Lemma ClearSheet_is_ClearRange_witness :
  (ClearSheet quota_world "Sheet1!A1:B2" cached_state).1
  = (ClearRange quota_world "Sheet1!A1:B2" cached_state).1
  /\ (ClearRange quota_world "Sheet1!A1:B2" cached_state).1
     = Returns (Some (errors_New "quota")).
Proof.
  destruct (ClearSheet_is_ClearRange quota_world "Sheet1!A1:B2" cached_state)
    as (Hres & _ & _).
  - intros c e. vm_compute. intros [H|[H|[]]]; discriminate.
  - split; [exact Hres | reflexivity].
Defined.

Section settle_facts.
Local Open Scope go_scope.

Lemma no_auth_no_success evs :
  forallb (fun ev => negb (is_auth ev)) evs = true -> successful_auths evs = [].
Proof.
  induction evs as [|ev evs IH]; [done|]. simpl. intros H.
  apply andb_prop in H as [Hev Hevs]. unfold successful_auths in *. simpl.
  destruct ev as [d s [err|conf]| | | | |]; try discriminate; by rewrite IH.
Qed.

Lemma successful_auths_app evs1 evs2 :
  successful_auths (evs1 ++ evs2) = successful_auths evs1 ++ successful_auths evs2.
Proof. unfold successful_auths. apply omap_app. Qed.

Lemma auth_uses_with_Client c conf ev : auth_uses (with_Client c conf) ev <-> auth_uses conf ev.
Proof. by destruct ev. Qed.

Lemma settles_refl st : settles st st.
Proof.
  exists []. split; [by rewrite app_nil_r|]. split; [constructor|].
  destruct (Client (googleConf st)); auto.
Qed.

Lemma settles_trans st1 st2 st3 : settles st1 st2 -> settles st2 st3 -> settles st1 st3.
Proof.
  intros (evs1 & Ht1 & Hu1 & H1) (evs2 & Ht2 & Hu2 & H2).
  exists (evs1 ++ evs2). split; [by rewrite Ht2, Ht1, app_assoc|].
  assert (Hu : Forall (auth_uses (googleConf st1)) evs2).
  { destruct (Client (googleConf st1)) as [c1|] eqn:E1.
    - destruct H1 as [Hc1 _]. by rewrite <- Hc1.
    - destruct H1 as [[Hc1 _]|(conf & Hc1 & _)]; [by rewrite <- Hc1|].
      rewrite Hc1 in Hu2. eapply Forall_impl; [exact Hu2|].
      intros ev. apply auth_uses_with_Client. }
  split; [by apply Forall_app|].
  destruct (Client (googleConf st1)) as [c1|] eqn:E1.
  - destruct H1 as [Hc1 Hn1]. rewrite Hc1, E1 in H2. destruct H2 as [Hc2 Hn2].
    split; [congruence|]. by rewrite forallb_app, Hn1, Hn2.
  - rewrite successful_auths_app.
    destruct H1 as [[Hc1 Hs1]|(conf & Hc1 & Hs1)].
    + rewrite Hc1, E1 in H2. rewrite Hs1. exact H2.
    + rewrite Hc1 in H2. simpl in H2. destruct H2 as [Hc2 Hn2].
      right. exists conf. split; [congruence|].
      by rewrite Hs1, (no_auth_no_success _ Hn2).
Qed.

Lemma settling_ret {A} (a : A) : settling (ret a).
Proof. intros st. apply settles_refl. Qed.

Lemma settling_panic {A} msg : settling (@panic A msg).
Proof. intros st. apply settles_refl. Qed.

Lemma settling_lift {A} (o : Outcome A) : settling (lift o).
Proof. intros st. apply settles_refl. Qed.

Lemma settling_get_conf : settling get_conf.
Proof. intros st. apply settles_refl. Qed.

Lemma settling_bind {A B} (m : M A) (k : A -> M B) :
  settling m -> (forall a, settling (k a)) -> settling (bind m k).
Proof.
  intros Hm Hk st. unfold bind. specialize (Hm st).
  destruct (m st) as [[a|msg] st1]; simpl in *; [|done].
  eapply settles_trans; [exact Hm | apply Hk].
Qed.

Lemma settling_event {A} (ask : list Event -> A) (ev : A -> Event) :
  (forall a, is_auth (ev a) = false) -> settling (call ask ev).
Proof.
  intros Hev st. exists [ev (ask (trace st))]. split; [done|].
  specialize (Hev (ask (trace st))).
  split.
  { constructor; [|constructor]. by destruct (ev (ask (trace st))). }
  assert (Hs : successful_auths [ev (ask (trace st))] = []).
  { apply no_auth_no_success. simpl. by rewrite Hev. }
  simpl. rewrite Hev. destruct (Client (googleConf st)); auto.
Qed.

Lemma settling_Printf format : settling (Printf format).
Proof.
  intros st. exists [EvPrintf format]. split; [done|].
  split; [by repeat constructor|]. simpl.
  destruct (Client (googleConf st)); auto.
Qed.

Lemma settling_check_google_auth w : settling (check_google_auth w).
Proof.
  intros st. unfold check_google_auth, bind, get_conf. simpl.
  destruct (Client (googleConf st)) as [c|] eqn:E; simpl.
  - exists []. rewrite app_nil_r, E. repeat split; done.
  - unfold googleAuth, bind, call. simpl.
    destruct (JWTConfigFromJSON w (trace st) _ _) as [err|jc]; simpl;
      eexists; (split; [reflexivity|]); rewrite E;
      (split; [by repeat constructor|]).
    + left. split; [|done]. rewrite <- E. apply with_Client_same.
    + right. by eexists.
Qed.

Lemma settling_New w client : settling (New w client).
Proof.
  destruct client as [c|]; simpl; [|apply settling_ret].
  apply settling_bind; [by apply settling_event|].
  intros [e|]; apply settling_ret.
Qed.

Ltac settle :=
  repeat first
    [ apply settling_ret | apply settling_panic | apply settling_lift
    | apply settling_get_conf | apply settling_check_google_auth
    | apply settling_New | apply settling_Printf
    | apply settling_event; done
    | apply settling_bind
    | match goal with |- forall _, _ => intro end; cbv beta
    | match goal with |- settling (match ?x with _ => _ end) => destruct x end ].

Lemma settling_DataArrayToGoogleSpreadSheet w sheet row col data :
  settling (DataArrayToGoogleSpreadSheet w sheet row col data).
Proof. unfold DataArrayToGoogleSpreadSheet. settle. Qed.

Lemma settling_DataMapToGoogleSpreadsheet w sheet row col data :
  settling (DataMapToGoogleSpreadsheet w sheet row col data).
Proof.
  unfold DataMapToGoogleSpreadsheet.
  settle; apply settling_DataArrayToGoogleSpreadSheet.
Qed.

Lemma settling_ClearRange w r : settling (ClearRange w r).
Proof. unfold ClearRange. settle. Qed.

Lemma settling_GoogleSpreadsheetToDataArray w r :
  settling (GoogleSpreadsheetToDataArray w r).
Proof. unfold GoogleSpreadsheetToDataArray. settle. Qed.

Lemma settling_ClearSheet w r : settling (ClearSheet w r).
Proof. unfold ClearSheet. settle. Qed.

Lemma settles_after w op st : settles st (state_after w op st).
Proof.
  destruct op; simpl.
  - apply settling_ClearRange.
  - apply settling_DataMapToGoogleSpreadsheet.
  - apply settling_DataArrayToGoogleSpreadSheet.
  - apply settling_GoogleSpreadsheetToDataArray.
  - apply settling_ClearSheet.
Qed.

Lemma settles_run_all w ops : forall st, settles st (run_all w ops st).
Proof.
  induction ops as [|op ops IH]; intros st; simpl; [apply settles_refl|].
  eapply settles_trans; [apply settles_after | apply IH].
Qed.

End settle_facts.

(** X9: over any sequence of operations on one configuration, every parse
    of credentials is a parse of the configuration's credentials for the
    scope of spreadsheets; a client that is cached at the start is still the
    cached client at the end and nothing is parsed; and from a
    configuration without a client at most one parse succeeds, the client
    cached at the end being the client of that parse, or no client when
    none succeeded. *)
Theorem client_is_cached_once (w : World) (ops : list Operation) (st : State) :
  let st' := run_all w ops st in
  let evs := new_events st st' in
  Forall (auth_uses (googleConf st)) evs
  /\ (forall c, Client (googleConf st) = Some c ->
        googleConf st' = googleConf st /\ count_events is_auth evs = 0%nat)
  /\ (Client (googleConf st) = None ->
        (googleConf st' = googleConf st /\ successful_auths evs = [])
        \/ exists conf,
             googleConf st' = with_Client (Some (oauth2_NewClient conf)) (googleConf st)
             /\ successful_auths evs = [conf]).
Proof.
  intros st' evs.
  destruct (settles_run_all w ops st) as (evs' & Ht & Hu & Hc). fold st' in Ht, Hc.
  assert (Hev : evs = evs').
  { unfold evs, new_events. rewrite Ht. apply drop_app_length. }
  rewrite Hev. split; [exact Hu|]. split.
  - intros c E. rewrite E in Hc. destruct Hc as [Hc Hn]. split; [exact Hc|].
    unfold count_events. clear -Hn. induction evs' as [|ev evs' IH]; [done|].
    simpl in *. apply andb_prop in Hn as [Hev Hn].
    destruct (is_auth ev); [discriminate|]. by apply IH.
  - intros E. by rewrite E in Hc.
Qed.

Lemma client_is_cached_once_witness :
  successful_auths
    (new_events sample_state
       (run_all (sample_world 200 [[VInt 1]])
          [OpGoogleSpreadsheetToDataArray "Sheet1!A1:B2";
           OpDataMapToGoogleSpreadsheet "Sheet1" 1 1 [sample_row];
           OpClearSheet "Sheet1!A1:B2"]
          sample_state))
  = [JWTConfig_at 1%N].
Proof.
  destruct (client_is_cached_once (sample_world 200 [[VInt 1]])
              [OpGoogleSpreadsheetToDataArray "Sheet1!A1:B2";
               OpDataMapToGoogleSpreadsheet "Sheet1" 1 1 [sample_row];
               OpClearSheet "Sheet1!A1:B2"] sample_state) as (_ & _ & Hfresh).
  destruct (Hfresh eq_refl) as [[Hconf _]|(conf & Hconf & Hone)].
  - exfalso. apply (f_equal Client) in Hconf. vm_compute in Hconf. discriminate.
  - rewrite Hone. f_equal. apply (f_equal Client) in Hconf. vm_compute in Hconf.
    by injection Hconf as <-.
Defined.

Section write_more.

Lemma shapeMapRows_dimensions first rest :
  GoInt.len (shapeMapRows (first :: rest)) = GoInt.len (first :: rest) + 1
  /\ exists header lines,
       shapeMapRows (first :: rest) = header :: lines
       /\ GoInt.len header = Z.of_nat (size first).
Proof.
  unfold shapeMapRows. split.
  - unfold GoInt.len. simpl. rewrite length_fmap. lia.
  - eexists _, _. split; [reflexivity|].
    unfold GoInt.len. by rewrite length_fmap, sorted_keys_length.
Qed.

(** With a cached client and a service that can be built, the write of an
    array sends one update. *)
Lemma DataArrayToGoogleSpreadSheet_issues w sheet row col cell first rest st c :
  Client (googleConf st) = Some c ->
  sheets_New w (trace st) c = None ->
  exists res,
    new_events st (DataArrayToGoogleSpreadSheet w sheet row col
                     ((cell :: first) :: rest) st).2
    = [EvSheetsNew c None;
       EvUpdateDo (sheets_Service c) (SpreadsheetID (googleConf st))
         (myRange sheet row col (GoInt.len ((cell :: first) :: rest))
            (GoInt.len (cell :: first)))
         (mkValueRange "ROWS" ((cell :: first) :: rest)) "USER_ENTERED" res].
Proof.
  intros Hc HN. rewrite DataArrayToGoogleSpreadSheet_nonempty.
  run_with Hc. rewrite HN. cbn [fst snd googleConf trace SpreadsheetID].
  rewrite <- app_assoc. cbn [app].
  match goal with
  | |- context [EvUpdateDo _ _ _ _ _ ?r] => exists r; destruct r as [e|u]
  end.
  - cbv beta iota. cbn [snd]. by rewrite new_events_app.
  - destruct ((HTTPStatusCode u <? 200) || (299 <? HTTPStatusCode u));
      cbv beta iota; cbn [snd]; by rewrite new_events_app.
Qed.

Lemma ColAddress_past_the_end (a n : Z) :
  GoInt.in_range a -> 0 <= n <= GoInt.int_max -> 675 <= a + n ->
  ColAddress (GoInt.add a n) = EmptyString.
Proof.
  unfold GoInt.in_range, GoInt.int_min, GoInt.int_max. intros Ha Hn Hsum.
  apply ColAddress_empty.
  destruct (Z.le_gt_cases (a + n) (2 ^ 63 - 1)) as [Hfit|Hover].
  - right. unfold GoInt.add. rewrite wrap_small; [lia|].
    unfold GoInt.in_range, GoInt.int_min, GoInt.int_max. lia.
  - left. unfold GoInt.add, GoInt.wrap.
    replace (a + n + 2 ^ 63) with ((a + n - 2 ^ 63) + 1 * 2 ^ 64) by lia.
    rewrite Z_mod_plus_full, Z.mod_small; lia.
Qed.

End write_more.

(** X10: a write of rows with a key in the first row aims every update at
    the range that starts at the given cell and ends [nbCols] columns to the
    right and [nbRows + 1] rows below, one row more than the data because of
    the header line, and sends the shaped array as rows to be parsed as user
    input; with a cached client and a service that can be built, that
    update is sent. *)
Theorem rows_write_target (w : World) (sheet : string) (row col : Z)
    (first : gmap string Value) (rest : list (gmap string Value)) (st : State) :
  size first <> 0%nat ->
  Z.of_nat (size first) < GoInt.int_max ->
  GoInt.len (first :: rest) < GoInt.int_max ->
  let data := first :: rest in
  let st' := (DataMapToGoogleSpreadsheet w sheet row col data st).2 in
  let target :=
    sheet +:+ "!" +:+ ColAddress col +:+ Itoa row +:+ ":" +:+
    ColAddress (GoInt.add col (Z.of_nat (size first)))
    +:+ Itoa (GoInt.add row (GoInt.len data + 1)) in
  (forall srv id rng body opt res,
     In (EvUpdateDo srv id rng body opt res) (new_events st st') ->
     id = SpreadsheetID (googleConf st) /\ rng = target
     /\ body = mkValueRange "ROWS" (shapeMapRows data)
     /\ opt = "USER_ENTERED"%string)
  /\ (forall c, Client (googleConf st) = Some c -> sheets_New w (trace st) c = None ->
      exists res,
        new_events st st'
        = [EvSheetsNew c None;
           EvUpdateDo (sheets_Service c) (SpreadsheetID (googleConf st)) target
             (mkValueRange "ROWS" (shapeMapRows data)) "USER_ENTERED" res]).
Proof.
  intros Hsize Hcols Hrows data st' target.
  assert (Hdata : has_data (OpDataMapToGoogleSpreadsheet sheet row col data)).
  { exists first, rest. done. }
  destruct (DataMapToGoogleSpreadsheet_shaped w sheet row col data st Hdata)
    as (Hmap & cell & line & lines & Hshape).
  destruct (shapeMapRows_dimensions first rest) as (Hlen & header & lines' & Hh & Hhlen).
  fold data in Hlen, Hh. rewrite Hshape in Hh. injection Hh as <- <-.
  assert (Htarget : myRange sheet row col (GoInt.len (shapeMapRows data))
                      (GoInt.len (cell :: line)) = target).
  { by rewrite Hlen, Hhlen. }
  subst st'. rewrite Hmap. split.
  - intros srv id rng body opt res Hin. rewrite Hshape in Hin.
    apply DataArrayToGoogleSpreadSheet_updates in Hin.
    rewrite <- Hshape, Htarget in Hin. exact Hin.
  - intros c Hc HN.
    destruct (DataArrayToGoogleSpreadSheet_issues w sheet row col cell line lines st c Hc HN)
      as [res Hev].
    exists res. rewrite <- Hshape, Htarget in Hev. exact Hev.
Qed.

Lemma rows_write_target_witness :
  exists res,
    new_events cached_state
      (DataMapToGoogleSpreadsheet (sample_world 200 []) "Sheet1" 2 2
         [sample_row; sample_row] cached_state).2
    = [EvSheetsNew sample_client None;
       EvUpdateDo (sheets_Service sample_client) "sheet-id" "Sheet1!B2:D5"
         (mkValueRange "ROWS"
            [[VString "a"; VString "b"]; [VString "2"; VString "1"];
             [VString "2"; VString "1"]])
         "USER_ENTERED" res].
Proof.
  destruct (rows_write_target (sample_world 200 []) "Sheet1" 2 2 sample_row [sample_row]
              cached_state) as (_ & Hissued); [by vm_compute .. |].
  destruct (Hissued sample_client eq_refl eq_refl) as [res Hev].
  exists res. rewrite Hev. by vm_compute.
Defined.

(** X11: the write of an array does not check the columns: when the end
    column [destCol + nbCols] reaches 675 the update is sent all the same,
    to a range whose end address has a row number and no column letters. *)
Theorem write_past_last_column (w : World) (destSheet : string) (destRow destCol : Z)
    (cell : Value) (first : list Value) (rest : list (list Value))
    (st : State) (c : HttpClient) :
  GoInt.in_range destCol ->
  GoInt.len (cell :: first) <= GoInt.int_max ->
  675 <= destCol + GoInt.len (cell :: first) ->
  Client (googleConf st) = Some c ->
  sheets_New w (trace st) c = None ->
  let data := (cell :: first) :: rest in
  exists res,
    new_events st (DataArrayToGoogleSpreadSheet w destSheet destRow destCol data st).2
    = [EvSheetsNew c None;
       EvUpdateDo (sheets_Service c) (SpreadsheetID (googleConf st))
         (destSheet +:+ "!" +:+ ColAddress destCol +:+ Itoa destRow +:+ ":" +:+
          Itoa (GoInt.add destRow (GoInt.len data)))
         (mkValueRange "ROWS" data) "USER_ENTERED" res].
Proof.
  intros Hcol Hlen Hend Hc HN data.
  destruct (DataArrayToGoogleSpreadSheet_issues w destSheet destRow destCol cell first rest
              st c Hc HN) as [res Hev].
  exists res. unfold data. rewrite Hev. unfold myRange.
  rewrite ColAddress_past_the_end; [reflexivity | done | | done].
  unfold GoInt.len in *. lia.
Qed.

Lemma write_past_last_column_witness :
  exists res,
    new_events cached_state
      (DataArrayToGoogleSpreadSheet (sample_world 200 []) "Sheet1" 1 674
         [[VInt 1]] cached_state).2
    = [EvSheetsNew sample_client None;
       EvUpdateDo (sheets_Service sample_client) "sheet-id" "Sheet1!YX1:2"
         (mkValueRange "ROWS" [[VInt 1]]) "USER_ENTERED" res].
Proof.
  destruct (write_past_last_column (sample_world 200 []) "Sheet1" 1 674 (VInt 1) [] []
              cached_state sample_client) as [res Hev];
    [by vm_compute | by vm_compute | by vm_compute | reflexivity | reflexivity |].
  exists res. rewrite Hev. by vm_compute.
Defined.

Section shaping_more.

Lemma scan_cell_agree first rowvalue rowvalue' k :
  agree_on first rowvalue rowvalue' -> k ∈ sorted_keys first ->
  scan_cell rowvalue k = scan_cell rowvalue' k.
Proof.
  intros Hagree Hk. apply sorted_keys_elem in Hk.
  unfold scan_cell, map_index. by rewrite (Hagree k Hk).
Qed.

Lemma shapeMapRows_agree first rest rest' :
  Forall2 (agree_on first) rest rest' ->
  shapeMapRows (first :: rest) = shapeMapRows (first :: rest').
Proof.
  intros Hagree. unfold shapeMapRows. f_equal. simpl. f_equal.
  induction Hagree as [|r r' rest rest' Hr _ IH]; [done|].
  simpl. f_equal; [|exact IH].
  apply list_fmap_ext. intros i k Hk.
  apply (scan_cell_agree first); [done|]. by eapply list_elem_of_lookup_2.
Qed.

End shaping_more.

(** X12: the rows after the first count only through their values under
    the keys of the first row: rows that differ in other keys alone are
    shaped into the same array and written by the same run, so a key that
    the first row lacks is silently left out of the sheet. *)
Theorem keys_outside_first_row_are_ignored (w : World) (sheet : string) (row col : Z)
    (first : gmap string Value) (rest rest' : list (gmap string Value)) (st : State) :
  Z.of_nat (size first) < GoInt.int_max ->
  GoInt.len (first :: rest) < GoInt.int_max ->
  Forall2 (agree_on first) rest rest' ->
  shape (map_range w) (first :: rest) first (GoInt.len (first :: rest))
    (Z.of_nat (size first))
  = shape (map_range w) (first :: rest') first (GoInt.len (first :: rest'))
      (Z.of_nat (size first))
  /\ DataMapToGoogleSpreadsheet w sheet row col (first :: rest) st
     = DataMapToGoogleSpreadsheet w sheet row col (first :: rest') st.
Proof.
  intros Hcols Hrows Hagree.
  assert (Hlen : GoInt.len (first :: rest') = GoInt.len (first :: rest)).
  { unfold GoInt.len. simpl. by rewrite (Forall2_length _ _ _ Hagree). }
  assert (Hshape :
    shape (map_range w) (first :: rest) first (GoInt.len (first :: rest))
      (Z.of_nat (size first))
    = shape (map_range w) (first :: rest') first (GoInt.len (first :: rest'))
        (Z.of_nat (size first))).
  { rewrite !shape_returns by (rewrite ?Hlen; done).
    by rewrite (shapeMapRows_agree first rest rest'). }
  split; [exact Hshape|].
  unfold DataMapToGoogleSpreadsheet.
  rewrite !len_cons_nonzero, !slice_get_head, !bind_lift_Returns.
  by rewrite Hshape.
Qed.

Lemma keys_outside_first_row_are_ignored_witness :
  DataMapToGoogleSpreadsheet (sample_world 200 []) "Sheet1" 1 1
    [sample_row; <["c"%string := VInt 3]> sample_row] sample_state
  = DataMapToGoogleSpreadsheet (sample_world 200 []) "Sheet1" 1 1
      [sample_row; sample_row] sample_state.
Proof.
  refine (proj2 (keys_outside_first_row_are_ignored (sample_world 200 []) "Sheet1" 1 1
                   sample_row [<["c"%string := VInt 3]> sample_row] [sample_row]
                   sample_state _ _ _)).
  - by vm_compute.
  - by vm_compute.
  - constructor; [|constructor]. intros k [v Hk].
    apply lookup_insert_ne. intros <-. by vm_compute in Hk.
Defined.

(** X13: the shaped array is a rectangle of strings: one line more than
    there are rows, every line as long as the first row has keys, every cell
    a string, whatever the types of the values and whichever keys the later
    rows have. *)
Theorem shaped_array_is_rectangular (mr : MapRange)
    (first : gmap string Value) (rest : list (gmap string Value)) :
  Z.of_nat (size first) < GoInt.int_max ->
  GoInt.len (first :: rest) < GoInt.int_max ->
  exists valueData : list (list Value),
    shape mr (first :: rest) first (GoInt.len (first :: rest)) (Z.of_nat (size first))
    = Returns valueData
    /\ length valueData = S (S (length rest))
    /\ Forall (fun line =>
                 length line = size first
                 /\ Forall (fun cell => exists s, cell = VString s) line)
              valueData.
Proof.
  intros Hcols Hrows. exists (shapeMapRows (first :: rest)).
  split; [by apply shape_returns|]. unfold shapeMapRows.
  split; [simpl; by rewrite length_fmap|].
  constructor.
  - split; [by rewrite length_fmap, sorted_keys_length|].
    apply Forall_fmap, Forall_forall. intros k _. by eexists.
  - apply Forall_fmap, Forall_forall. intros rowvalue _. simpl.
    split; [by rewrite length_fmap, sorted_keys_length|].
    apply Forall_fmap, Forall_forall. intros k _. simpl.
    rewrite scan_cell_coerce. by eexists.
Qed.

Lemma shaped_array_is_rectangular_witness :
  exists valueData : list (list Value),
    shape listing_range [sample_row; ∅; {["z"%string := VOther "chan int"]}] sample_row 3 2
    = Returns valueData
    /\ Forall (fun line => length line = 2%nat) valueData.
Proof.
  destruct (shaped_array_is_rectangular listing_range sample_row
              [∅; {["z"%string := VOther "chan int"]}]) as (valueData & Hshape & _ & Hrect);
    [by vm_compute | by vm_compute |].
  exists valueData. split; [exact Hshape|].
  eapply Forall_impl; [exact Hrect|]. intros line [Hlen _]. exact Hlen.
Defined.

Section kind_facts.

Ltac kinds_done :=
  unfold only_calls; intros ev Hin; simpl in Hin;
  decompose [or] Hin; subst; simpl; auto; done.

Lemma only_calls_nil kind : only_calls kind [].
Proof. kinds_done. Qed.

Lemma only_calls_DataArrayToGoogleSpreadSheet w sheet row col data st :
  only_calls UpdateCall
    (new_events st (DataArrayToGoogleSpreadSheet w sheet row col data st).2).
Proof.
  destruct (DataArrayToGoogleSpreadSheet_cases w sheet row col data st)
    as [->|(cell & first & rest & ->)].
  { simpl. rewrite new_events_refl. apply only_calls_nil. }
  rewrite DataArrayToGoogleSpreadSheet_nonempty.
  run_operation; split_branches; kinds_done.
Qed.

Lemma only_calls_DataMapToGoogleSpreadsheet w sheet row col data st :
  only_calls UpdateCall
    (new_events st (DataMapToGoogleSpreadsheet w sheet row col data st).2).
Proof.
  destruct (DataMapToGoogleSpreadsheet_cases w sheet row col data st)
    as [->|[[msg ->]|[valueData ->]]].
  - simpl. rewrite new_events_refl. apply only_calls_nil.
  - simpl. rewrite new_events_refl. apply only_calls_nil.
  - apply only_calls_DataArrayToGoogleSpreadSheet.
Qed.

Lemma only_calls_ClearRange w r st :
  only_calls ClearCall (new_events st (ClearRange w r st).2).
Proof. unfold ClearRange. run_operation; split_branches; kinds_done. Qed.

Lemma only_calls_ClearSheet w r st :
  only_calls ClearCall (new_events st (ClearSheet w r st).2).
Proof. unfold ClearSheet. run_operation; split_branches; kinds_done. Qed.

Lemma only_calls_GoogleSpreadsheetToDataArray w r st :
  only_calls GetCall (new_events st (GoogleSpreadsheetToDataArray w r st).2).
Proof. unfold GoogleSpreadsheetToDataArray. run_operation; split_branches; kinds_done. Qed.

End kind_facts.

(** X14: an operation calls the service for its own purpose only: a write
    sends nothing but an update, a read nothing but a get, a clear nothing
    but a clear; in particular a read never changes the sheet. *)
Theorem operations_keep_to_their_call (w : World) (op : Operation) (st : State) :
  only_calls (operation_kind op) (new_events st (state_after w op st)).
Proof.
  destruct op as [r|sheet row col data|sheet row col data|r|r]; simpl.
  - apply only_calls_ClearRange.
  - apply only_calls_DataMapToGoogleSpreadsheet.
  - apply only_calls_DataArrayToGoogleSpreadSheet.
  - apply only_calls_GoogleSpreadsheetToDataArray.
  - apply only_calls_ClearSheet.
Qed.
